(** * Contract-intelligence browser client: workspace binding, batch upload
      orchestrator and query client

    A shallow embedding of
      - [frontend/src/utils/namespace.ts]   (setNamespace / getNamespace / clearNamespace),
      - [frontend/src/services/api.ts]      (uploadContract / queryContracts),
      - [frontend/src/components/ContractUpload.tsx] (handleNamespaceChange / onDrop / removeFile
        and the status gate on the delete button),
      - [frontend/src/components/ContractQuery.tsx]  (handleSubmit).

    Event handlers are programs over the effects the components use (React
    state setters, [localStorage], [api.post] and [await]).  A run of a handler
    against an arbitrary backend yields the final state and the trace of what
    it did, and the properties below are stated on those.  A session lets
    the handlers of the upload component interleave at their [await]s, the
    way the event loop does. *)

From Stdlib Require Import ZArith NArith Ascii String DecimalString Lia.
From stdpp Require Import gmap list strings.

Local Open Scope nat_scope.
Local Open Scope list_scope.

(* ===================================================================== *)
(** ** JavaScript strings and numbers *)
(* ===================================================================== *)

(** A JavaScript string is a sequence of UTF-16 code units; the regular
    expression of [handleNamespaceChange] has no [u] flag and [trim] only
    strips BMP code points, so both work code unit by code unit. *)
Abbreviation char16 := N (only parsing).
Abbreviation jsstring := (list N) (only parsing).

(** An ASCII literal of the source as a JavaScript string. *)
Definition lit (s : string) : jsstring :=
  List.map N_of_ascii (list_ascii_of_string s).
Arguments lit s%_string.

(** The code unit of an ASCII character, for character classes. *)
Definition chr (a : ascii) : char16 := N_of_ascii a.
Arguments chr a%_char.

(** The double quote of the template literal in [onDrop]. *)
Definition dquote : jsstring := [34%N].

(** [!s] for a string: only the empty string is falsy. *)
Definition is_empty (s : jsstring) : bool :=
  match s with [] => true | _ :: _ => false end.

(** [a || b] on strings. *)
Definition js_or (a b : jsstring) : jsstring :=
  if is_empty a then b else a.

(** [a || b] where [a] comes from an optional chain ([undefined] is falsy). *)
Definition opt_or (a : option jsstring) (b : jsstring) : jsstring :=
  match a with
  | Some s => js_or s b
  | None => b
  end.

(** ECMAScript WhiteSpace and LineTerminator code points, what
    [String.prototype.trim] strips. *)
Definition is_white_space (c : char16) : bool :=
  (  (9 <=? c) && (c <=? 13)
  || (c =? 32) || (c =? 160) || (c =? 5760)
  || (8192 <=? c) && (c <=? 8202)
  || (c =? 8232) || (c =? 8233) || (c =? 8239) || (c =? 8287)
  || (c =? 12288) || (c =? 65279))%N.

Fixpoint trimStart (s : jsstring) : jsstring :=
  match s with
  | c :: s' => if is_white_space c then trimStart s' else s
  | [] => []
  end.

Definition trimEnd (s : jsstring) : jsstring := rev (trimStart (rev s)).

Definition trim (s : jsstring) : jsstring := trimEnd (trimStart s).

(** [Number.prototype.toString], which a template literal applies to a
    number, on the safe integers: there it is the plain decimal below, and
    the counters of the components are such.  Beyond them a number is a
    double that need not be an integer one can write down digit by digit,
    and from [1e21] on JavaScript prints an exponent; what is stated about
    a text made from a number the server sent is therefore stated for safe
    integers, see [prints_as]. *)
Definition toString (z : Z) : jsstring := lit (NilZero.string_of_int (Z.to_int z)).

(** A value interpolated in a template literal: [undefined] prints as such. *)
Definition interpolate (z : option Z) : jsstring :=
  match z with
  | Some n => toString n
  | None => lit "undefined"
  end.

(** [Number.MAX_SAFE_INTEGER], [2^53 - 1]. *)
Definition MAX_SAFE_INTEGER : Z := 9007199254740991.

(** [Number.isSafeInteger] on an integer. *)
Definition isSafeInteger (z : Z) : bool := (Z.abs z <=? MAX_SAFE_INTEGER)%Z.

(** [text] is what a template literal prints for the count [z], as far as
    this development states it: [undefined] for a missing count and the
    decimal digits for a safe integer; nothing is said of the digits of
    other numbers. *)
Definition prints_as (z : option Z) (text : jsstring) : Prop :=
  match z with
  | Some n => isSafeInteger n = true -> text = toString n
  | None => text = lit "undefined"
  end.

(* ===================================================================== *)
(** ** Regular expressions: one character class, global replace *)
(* ===================================================================== *)

Inductive ClassItem : Type :=
| Range (lo hi : char16)
| Atom (c : char16).

Record CharClass : Type := { negated : bool; items : list ClassItem }.

Definition item_matches (c : char16) (i : ClassItem) : bool :=
  match i with
  | Range lo hi => ((lo <=? c) && (c <=? hi))%N
  | Atom a => (c =? a)%N
  end.

Definition class_matches (cls : CharClass) (c : char16) : bool :=
  xorb (negated cls) (existsb (item_matches c) (items cls)).

(** [s.replace(/[...]/g, replacement)]: every code unit the class matches is
    replaced, the others are copied. *)
Definition replace_all (cls : CharClass) (replacement s : jsstring) : jsstring :=
  flat_map (fun c => if class_matches cls c then replacement else [c]) s.

(** [/[^a-zA-Z0-9-_]/g] : after the range [0-9] the hyphen is a literal. *)
Definition not_namespace_char : CharClass :=
  {| negated := true;
     items := [Range (chr "a") (chr "z"); Range (chr "A") (chr "Z");
               Range (chr "0") (chr "9"); Atom (chr "-"); Atom (chr "_")] |}.

(* ===================================================================== *)
(** ** Data model *)
(* ===================================================================== *)

(** A [File] is a browser object: [===] on files compares references.  The
    name and content do not take part in the comparison. *)
Record File : Type := {
  file_ref : nat;
  file_name : jsstring;
  file_content : list N
}.

(** [a === b] on [File] objects. *)
Definition same_file (a b : File) : bool := file_ref a =? file_ref b.

(** ['uploading' | 'success' | 'error'] *)
Inductive Status : Type := uploading | success | error.

(** [interface FileUploadStatus] *)
Record FileUploadStatus : Type := {
  file : File;
  status : Status;
  message : option jsstring;
  chunksCreated : option Z
}.

Inductive Severity : Type := sev_success | sev_error.

(** The [{ type, text }] of [globalMessage]. *)
Record GlobalMessage : Type := { type : Severity; text : jsstring }.

(** [interface UploadResult]; its [status] is ['success' | 'error']. *)
Module UploadResult.
Inductive Status : Type := success | error.
Record t : Type := {
  filename : jsstring;
  status : Status;
  chunks_created : option Z;
  message : option jsstring
}.
End UploadResult.

(** [interface UploadResponse].  [onDrop] reads [results] through [?.], so
    the array may be missing. *)
Module UploadResponse.
Record t : Type := {
  message : jsstring;
  total_chunks : Z;
  results : option (list UploadResult.t)
}.
End UploadResponse.

(** [interface Source] *)
Record Source : Type := {
  source_num : Z;
  document : jsstring;
  page : option Z;
  source : jsstring;
  excerpt : jsstring
}.

(** [interface QueryResponse] *)
Module QueryResponse.
Record t : Type := { answer : jsstring; sources : list Source }.
End QueryResponse.

(** What a rejected request exposes to the handlers:
    [error.response?.data?.detail] and [error.message]. *)
Record AxiosError : Type := {
  detail : option jsstring;
  error_message : jsstring
}.

(* ===================================================================== *)
(** ** Component state, local storage and the network *)
(* ===================================================================== *)

(** The [useState] cells of [ContractUpload]. *)
Module UploadState.
Record t : Type := {
  files : list FileUploadStatus;
  globalMessage : option GlobalMessage;
  namespace : jsstring;
  namespaceError : jsstring
}.
End UploadState.

(** The [useState] cells of [ContractQuery] that [handleSubmit] writes.
    [query] is the text field; [topK] has no setter and stays at its initial
    value (see [topK]). *)
Module QueryState.
Record t : Type := {
  query : jsstring;
  answer : jsstring;
  sources : list Source;
  loading : bool;
  error : jsstring
}.
End QueryState.

(** Everything a handler can read or write: both components, the browser's
    [localStorage] and the counter that names the promises of [api.post]. *)
Record World : Type := {
  upload : UploadState.t;
  querier : QueryState.t;
  localStorage : gmap (list N) (list N);
  next_promise : nat
}.

(** A request as it goes on the wire. *)
Inductive Wire : Type :=
| PostUploadContract (f : File) (x_namespace : jsstring)
| PostQuery (query : jsstring) (top_k : Z) (namespace : jsstring).

(** [api.post<T>(...)]: the request determines the type of [response.data]. *)
Inductive Request : Type -> Type :=
| UploadContractRequest (f : File) (x_namespace : jsstring) : Request UploadResponse.t
| QueryRequest (query : jsstring) (top_k : Z) (namespace : jsstring) : Request QueryResponse.t.

Definition wire {T} (r : Request T) : Wire :=
  match r with
  | UploadContractRequest f ns => PostUploadContract f ns
  | QueryRequest q k ns => PostQuery q k ns
  end.

(** The promise [api.post] returns. *)
Record Promise (T : Type) : Type := { promise_id : nat; promise_request : Request T }.
Arguments promise_id {T} _.
Arguments promise_request {T} _.

(** The backend is any function from the requests it receives (numbered in
    the order they are issued) to a rejection or the response data. *)
Definition Backend : Type := forall T, nat -> Request T -> AxiosError + T.

(** The effects of the handlers. *)
Inductive Effect : Type -> Type :=
| SetFiles (update : list FileUploadStatus -> list FileUploadStatus) : Effect unit
| SetGlobalMessage (m : option GlobalMessage) : Effect unit
| SetNamespaceState (s : jsstring) : Effect unit
| SetNamespaceError (s : jsstring) : Effect unit
| SetAnswer (s : jsstring) : Effect unit
| SetSources (l : list Source) : Effect unit
| SetLoading (b : bool) : Effect unit
| SetError (s : jsstring) : Effect unit
| LocalStorageSetItem (key value : jsstring) : Effect unit
| LocalStorageGetItem (key : jsstring) : Effect (option jsstring)
| LocalStorageRemoveItem (key : jsstring) : Effect unit
| ApiPost {T} (r : Request T) : Effect (Promise T)
| Await {T} (p : Promise T) : Effect (AxiosError + T).

(** Handlers as trees of effects: an [async] function runs up to its next
    effect and goes on with the effect's result. *)
Inductive Prog (R : Type) : Type :=
| Ret (r : R)
| Vis {X : Type} (e : Effect X) (k : X -> Prog R).
Arguments Ret {R} r.
Arguments Vis {R X} e k.

Fixpoint bind {A B} (m : Prog A) (f : A -> Prog B) : Prog B :=
  match m with
  | Ret a => f a
  | Vis e k => Vis e (fun x => bind (k x) f)
  end.

Definition perform {X} (e : Effect X) : Prog X := Vis e Ret.

Declare Scope prog_scope.
Delimit Scope prog_scope with prog.
Bind Scope prog_scope with Prog.
Notation "x <- m ;; k" := (bind m (fun x => k))
  (at level 100, m at next level, right associativity) : prog_scope.
Notation "m ;; k" := (bind m (fun _ => k))
  (at level 100, right associativity) : prog_scope.
Local Open Scope prog_scope.

(** What a run leaves behind, in order. *)
Inductive Event : Type :=
| EvSetFiles (after : list FileUploadStatus)
| EvSetGlobalMessage (m : option GlobalMessage)
| EvSetNamespaceState (s : jsstring)
| EvSetNamespaceError (s : jsstring)
| EvSetAnswer (s : jsstring)
| EvSetSources (l : list Source)
| EvSetLoading (b : bool)
| EvSetError (s : jsstring)
| EvStorage (after : gmap (list N) (list N))
| EvRequest (id : nat) (w : Wire)
| EvSettled (id : nat).

Definition set_upload (f : UploadState.t -> UploadState.t) (w : World) : World :=
  {| upload := f (upload w); querier := querier w;
     localStorage := localStorage w; next_promise := next_promise w |}.
Definition set_querier (f : QueryState.t -> QueryState.t) (w : World) : World :=
  {| upload := upload w; querier := f (querier w);
     localStorage := localStorage w; next_promise := next_promise w |}.
Definition set_localStorage (s : gmap (list N) (list N)) (w : World) : World :=
  {| upload := upload w; querier := querier w;
     localStorage := s; next_promise := next_promise w |}.
Definition set_next_promise (n : nat) (w : World) : World :=
  {| upload := upload w; querier := querier w;
     localStorage := localStorage w; next_promise := n |}.

Definition set_files fs (s : UploadState.t) : UploadState.t :=
  {| UploadState.files := fs;
     UploadState.globalMessage := UploadState.globalMessage s;
     UploadState.namespace := UploadState.namespace s;
     UploadState.namespaceError := UploadState.namespaceError s |}.
Definition set_globalMessage m (s : UploadState.t) : UploadState.t :=
  {| UploadState.files := UploadState.files s;
     UploadState.globalMessage := m;
     UploadState.namespace := UploadState.namespace s;
     UploadState.namespaceError := UploadState.namespaceError s |}.
Definition set_namespace ns (s : UploadState.t) : UploadState.t :=
  {| UploadState.files := UploadState.files s;
     UploadState.globalMessage := UploadState.globalMessage s;
     UploadState.namespace := ns;
     UploadState.namespaceError := UploadState.namespaceError s |}.
Definition set_namespaceError e (s : UploadState.t) : UploadState.t :=
  {| UploadState.files := UploadState.files s;
     UploadState.globalMessage := UploadState.globalMessage s;
     UploadState.namespace := UploadState.namespace s;
     UploadState.namespaceError := e |}.

Definition set_answer a (s : QueryState.t) : QueryState.t :=
  {| QueryState.query := QueryState.query s; QueryState.answer := a;
     QueryState.sources := QueryState.sources s;
     QueryState.loading := QueryState.loading s;
     QueryState.error := QueryState.error s |}.
Definition set_sources l (s : QueryState.t) : QueryState.t :=
  {| QueryState.query := QueryState.query s; QueryState.answer := QueryState.answer s;
     QueryState.sources := l;
     QueryState.loading := QueryState.loading s;
     QueryState.error := QueryState.error s |}.
Definition set_loading b (s : QueryState.t) : QueryState.t :=
  {| QueryState.query := QueryState.query s; QueryState.answer := QueryState.answer s;
     QueryState.sources := QueryState.sources s;
     QueryState.loading := b;
     QueryState.error := QueryState.error s |}.
Definition set_error e (s : QueryState.t) : QueryState.t :=
  {| QueryState.query := QueryState.query s; QueryState.answer := QueryState.answer s;
     QueryState.sources := QueryState.sources s;
     QueryState.loading := QueryState.loading s;
     QueryState.error := e |}.

(** One effect: its result, the world after it and the events it leaves.  A
    state setter with a function argument is applied to the state at that
    moment; a response is delivered when its promise is awaited. *)
Definition step (be : Backend) {X} (e : Effect X) (w : World) : X * World * list Event :=
  match e in Effect X return X * World * list Event with
  | SetFiles update =>
      let fs := update (UploadState.files (upload w)) in
      (tt, set_upload (set_files fs) w, [EvSetFiles fs])
  | SetGlobalMessage m => (tt, set_upload (set_globalMessage m) w, [EvSetGlobalMessage m])
  | SetNamespaceState s => (tt, set_upload (set_namespace s) w, [EvSetNamespaceState s])
  | SetNamespaceError s => (tt, set_upload (set_namespaceError s) w, [EvSetNamespaceError s])
  | SetAnswer s => (tt, set_querier (set_answer s) w, [EvSetAnswer s])
  | SetSources l => (tt, set_querier (set_sources l) w, [EvSetSources l])
  | SetLoading b => (tt, set_querier (set_loading b) w, [EvSetLoading b])
  | SetError s => (tt, set_querier (set_error s) w, [EvSetError s])
  | LocalStorageSetItem key value =>
      let s := <[key := value]> (localStorage w) in
      (tt, set_localStorage s w, [EvStorage s])
  | LocalStorageGetItem key => (localStorage w !! key, w, [])
  | LocalStorageRemoveItem key =>
      let s := delete key (localStorage w) in
      (tt, set_localStorage s w, [EvStorage s])
  | ApiPost r =>
      let id := next_promise w in
      ({| promise_id := id; promise_request := r |},
       set_next_promise (S id) w, [EvRequest id (wire r)])
  | Await p =>
      (be _ (promise_id p) (promise_request p), w, [EvSettled (promise_id p)])
  end.

(** A handler run to its end against a backend. *)
Fixpoint run (be : Backend) {R} (p : Prog R) (w : World) : R * World * list Event :=
  match p with
  | Ret r => (r, w, [])
  | Vis e k =>
      let '(x, w1, evs) := step be e w in
      let '(r, w2, tr) := run be (k x) w1 in
      (r, w2, evs ++ tr)
  end.

Definition result_of {R} (o : R * World * list Event) : R := o.1.1.
Definition world_of {R} (o : R * World * list Event) : World := o.1.2.
Definition trace_of {R} (o : R * World * list Event) : list Event := o.2.

(* ===================================================================== *)
(** ** utils/namespace.ts *)
(* ===================================================================== *)

Definition contractNamespace : jsstring := lit "contractNamespace".

Definition setNamespace (namespace : jsstring) : Prog unit :=
  perform (LocalStorageSetItem contractNamespace namespace).

Definition getNamespace : Prog (option jsstring) :=
  perform (LocalStorageGetItem contractNamespace).

Definition clearNamespace : Prog unit :=
  perform (LocalStorageRemoveItem contractNamespace).

(* ===================================================================== *)
(** ** services/api.ts *)
(* ===================================================================== *)

(** [await api.post(...)] then [return response.data]; a rejection leaves
    the function as a rejection. *)
Definition uploadContract (f : File) (namespace : jsstring)
  : Prog (AxiosError + UploadResponse.t) :=
  p <- perform (ApiPost (UploadContractRequest f namespace)) ;;
  response <- perform (Await p) ;;
  Ret response.

Definition queryContracts (query namespace : jsstring) (topK : Z)
  : Prog (AxiosError + QueryResponse.t) :=
  p <- perform (ApiPost (QueryRequest query topK namespace)) ;;
  response <- perform (Await p) ;;
  Ret response.

(* ===================================================================== *)
(** ** components/ContractUpload.tsx *)
(* ===================================================================== *)

Definition handleNamespaceChange (value : jsstring) : Prog unit :=
  let sanitized := replace_all not_namespace_char [] value in
  perform (SetNamespaceState sanitized) ;;
  setNamespace sanitized ;;
  perform (SetNamespaceError []).

(** [result.results?.[0] || { status: 'success', chunks_created: result.total_chunks }] *)
Module FileResult.
Record t : Type := {
  status : UploadResult.Status;
  chunks_created : option Z;
  message : option jsstring
}.
End FileResult.

Definition fileResult_of (result : UploadResponse.t) : FileResult.t :=
  match UploadResponse.results result with
  | Some (r :: _) =>
      {| FileResult.status := UploadResult.status r;
         FileResult.chunks_created := UploadResult.chunks_created r;
         FileResult.message := UploadResult.message r |}
  | Some [] | None =>
      {| FileResult.status := UploadResult.success;
         FileResult.chunks_created := Some (UploadResponse.total_chunks result);
         FileResult.message := None |}
  end.

(** The element function of [prev.map(...)] after a resolved request. *)
Definition mark_result (file0 : File) (fileResult : FileResult.t)
    (f : FileUploadStatus) : FileUploadStatus :=
  if same_file (file f) file0 then
    {| file := file f;
       status := match FileResult.status fileResult with
                 | UploadResult.success => success
                 | UploadResult.error => error
                 end;
       message := match FileResult.status fileResult with
                  | UploadResult.success =>
                      Some (lit "Processed successfully! "
                            ++ interpolate (FileResult.chunks_created fileResult)
                            ++ lit " sections analyzed.")
                  | UploadResult.error => FileResult.message fileResult
                  end;
       chunksCreated := FileResult.chunks_created fileResult |}
  else f.

(** The element function of [prev.map(...)] in the [catch] block. *)
Definition mark_error (file0 : File) (err : AxiosError)
    (f : FileUploadStatus) : FileUploadStatus :=
  if same_file (file f) file0 then
    {| file := file f;
       status := error;
       message := Some (opt_or (detail err) (error_message err));
       chunksCreated := chunksCreated f |}
  else f.

(** The body of the [for] loop once [uploadContract] has settled with [r]:
    the [try] block after the [await] or the [catch] block, then the rest of
    the loop ([continue], given the two counters). *)
Definition loop_body (file0 : File) (continue : nat -> nat -> Prog (nat * nat))
    (successCount errorCount : nat) (r : AxiosError + UploadResponse.t)
  : Prog (nat * nat) :=
  match r with
  | inr result =>
      let fileResult := fileResult_of result in
      let counts :=
        match FileResult.status fileResult with
        | UploadResult.success => (S successCount, errorCount)
        | UploadResult.error => (successCount, S errorCount)
        end in
      perform (SetFiles (fmap (mark_result file0 fileResult))) ;;
      continue counts.1 counts.2
  | inl err =>
      perform (SetFiles (fmap (mark_error file0 err))) ;;
      continue successCount (S errorCount)
  end.

(** The [for] loop of [onDrop], from index [i] on: [acceptedFiles] are the
    files not yet uploaded, and the counters are returned at the end. *)
Fixpoint upload_each (namespace : jsstring) (acceptedFiles : list File)
    (successCount errorCount : nat) : Prog (nat * nat) :=
  match acceptedFiles with
  | [] => Ret (successCount, errorCount)
  | file0 :: rest =>
      r <- uploadContract file0 namespace ;;
      loop_body file0 (upload_each namespace rest) successCount errorCount r
  end.

(** [count > 1 ? 's' : ''] *)
Definition plural (count : nat) : jsstring := if 1 <? count then lit "s" else [].

Definition show (count : nat) : jsstring := toString (Z.of_nat count).

(** The item [acceptedFiles.map] builds for a new file. *)
Definition newFile (f : File) : FileUploadStatus :=
  {| file := f; status := uploading; message := None; chunksCreated := None |}.

Definition missing_workspace_message : GlobalMessage :=
  {| type := sev_error;
     text := lit "Please enter a workspace name before uploading documents." |}.

(** The message after the loop. *)
Definition summary (namespace : jsstring) (successCount errorCount : nat) : GlobalMessage :=
  if errorCount =? 0 then
    {| type := sev_success;
       text := show successCount ++ lit " document" ++ plural successCount
               ++ lit " uploaded successfully to workspace " ++ dquote
               ++ namespace ++ dquote ++ lit "!" |}
  else if successCount =? 0 then
    {| type := sev_error;
       text := lit "Failed to upload " ++ show errorCount ++ lit " document"
               ++ plural errorCount ++ lit ". Please try again." |}
  else
    {| type := sev_error;
       text := show successCount ++ lit " uploaded, " ++ show errorCount
               ++ lit " failed. Please check the errors above." |}.

(** The end of [onDrop]: the message chosen from the two counters. *)
Definition conclude (namespace : jsstring) (counts : nat * nat) : Prog unit :=
  perform (SetGlobalMessage (Some (summary namespace counts.1 counts.2))).

(** [onDrop]; [namespace] is the state cell the handler closes over. *)
Definition onDrop (namespace : jsstring) (acceptedFiles : list File) : Prog unit :=
  if length acceptedFiles =? 0 then Ret tt
  else if is_empty (trim namespace) then
    perform (SetNamespaceError (lit "Workspace name is required")) ;;
    perform (SetGlobalMessage (Some missing_workspace_message))
  else
    perform (SetGlobalMessage None) ;;
    let newFiles := newFile <$> acceptedFiles in
    perform (SetFiles (fun prev => prev ++ newFiles)) ;;
    counts <- upload_each namespace acceptedFiles 0 0 ;;
    conclude namespace counts.

Definition removeFile (fileToRemove : File) : Prog unit :=
  perform (SetFiles (List.filter (fun f => negb (same_file (file f) fileToRemove)))).

(** The delete button of one row of the list:
    [fileStatus.status !== 'uploading' && <IconButton onClick={() => removeFile(fileStatus.file)} />].
    A row that is uploading has no button. *)
Definition deleteButton (fileStatus : FileUploadStatus) : option (Prog unit) :=
  match status fileStatus with
  | uploading => None
  | success | error => Some (removeFile (file fileStatus))
  end.

(** A click on the delete control of row [index] of the rendered list. *)
Definition clickDelete (rendered : list FileUploadStatus) (index : nat) : Prog unit :=
  match rendered !! index with
  | Some fileStatus =>
      match deleteButton fileStatus with
      | Some onClick => onClick
      | None => Ret tt
      end
  | None => Ret tt
  end.

(* ===================================================================== *)
(** ** components/ContractQuery.tsx *)
(* ===================================================================== *)

(** [const [topK] = useState(10)]: no setter is ever taken. *)
Definition topK : Z := 10.

Definition missing_workspace_error : jsstring :=
  lit "Please upload documents first to set a workspace name.".

(** [handleSubmit] from [setLoading(true)] on, with the namespace read. *)
Definition submit (query namespace : jsstring) : Prog unit :=
  perform (SetLoading true) ;;
  perform (SetAnswer []) ;;
  perform (SetSources []) ;;
  perform (SetError []) ;;
  r <- queryContracts query namespace topK ;;
  match r with
  | inr result =>
      perform (SetAnswer (QueryResponse.answer result)) ;;
      perform (SetSources (QueryResponse.sources result))
  | inl err =>
      perform (SetError (js_or (opt_or (detail err) (error_message err))
                               (lit "Failed to get answer")))
  end ;;
  perform (SetLoading false).

(** [handleSubmit]; [query] is the state cell the handler closes over. *)
Definition handleSubmit (query : jsstring) : Prog unit :=
  if is_empty (trim query) then Ret tt
  else
    namespace <- getNamespace ;;
    match namespace with
    | Some (c :: s) => submit query (c :: s)
    | Some [] | None => perform (SetError missing_workspace_error)
    end.

(* ===================================================================== *)
(** ** Reading a trace *)
(* ===================================================================== *)

(** The requests issued, in order, with the promise each one got. *)
Fixpoint requests (tr : list Event) : list (nat * Wire) :=
  match tr with
  | [] => []
  | EvRequest id w :: tr' => (id, w) :: requests tr'
  | _ :: tr' => requests tr'
  end.

(** The requests in flight after [tr], given those in flight before it. *)
Fixpoint in_flight_from (pending : list nat) (tr : list Event) : list nat :=
  match tr with
  | [] => pending
  | EvRequest id _ :: tr' => in_flight_from (pending ++ [id]) tr'
  | EvSettled id :: tr' =>
      in_flight_from (List.filter (fun p => negb (p =? id)) pending) tr'
  | _ :: tr' => in_flight_from pending tr'
  end.

Definition in_flight (tr : list Event) : list nat := in_flight_from [] tr.

(** The largest number of requests in flight at any moment of [tr]. *)
Fixpoint peak_from (pending : list nat) (tr : list Event) : nat :=
  match tr with
  | [] => length pending
  | EvRequest id _ :: tr' => length pending `max` peak_from (pending ++ [id]) tr'
  | EvSettled id :: tr' =>
      length pending `max` peak_from (List.filter (fun p => negb (p =? id)) pending) tr'
  | _ :: tr' => length pending `max` peak_from pending tr'
  end.

(** The value of [files] after [tr], from its value before. *)
Fixpoint files_after (batch : list FileUploadStatus) (tr : list Event)
  : list FileUploadStatus :=
  match tr with
  | [] => batch
  | EvSetFiles after :: tr' => files_after after tr'
  | _ :: tr' => files_after batch tr'
  end.

(** The successive values of [files], each with the request on whose
    settlement the handler was resumed when it wrote that value ([None]
    before the first settlement). *)
Fixpoint files_history_from (resumed : option nat) (tr : list Event)
  : list (option nat * list FileUploadStatus) :=
  match tr with
  | [] => []
  | EvSettled id :: tr' => files_history_from (Some id) tr'
  | EvSetFiles after :: tr' => (resumed, after) :: files_history_from resumed tr'
  | _ :: tr' => files_history_from resumed tr'
  end.

Definition files_history (tr : list Event) : list (option nat * list FileUploadStatus) :=
  files_history_from None tr.

(** The session messages shown ([setGlobalMessage(null)] shows none). *)
Fixpoint session_messages (tr : list Event) : list GlobalMessage :=
  match tr with
  | [] => []
  | EvSetGlobalMessage (Some m) :: tr' => m :: session_messages tr'
  | _ :: tr' => session_messages tr'
  end.

(* ===================================================================== *)
(** ** What a batch run amounts to *)
(* ===================================================================== *)

Abbreviation Outcome := (AxiosError + UploadResponse.t)%type (only parsing).

(** The backend's answer to the upload of [f], issued as request [id]. *)
Definition outcome (be : Backend) (namespace : jsstring) (id : nat) (f : File) : Outcome :=
  be _ id (UploadContractRequest f namespace).

(** The update of [files] that follows an outcome. *)
Definition settle (f : File) (o : Outcome) (batch : list FileUploadStatus)
  : list FileUploadStatus :=
  match o with
  | inr result => mark_result f (fileResult_of result) <$> batch
  | inl err => mark_error f err <$> batch
  end.

(** An outcome that counts as a failure: a rejected request, or a response
    whose first result has status ['error']. *)
Definition failed (o : Outcome) : bool :=
  match o with
  | inl _ => true
  | inr result =>
      match UploadResponse.results result with
      | Some (r :: _) =>
          match UploadResult.status r with
          | UploadResult.error => true
          | UploadResult.success => false
          end
      | Some [] | None => false
      end
  end.

(** Number of failures among the uploads of [fs], issued from [id] on. *)
Fixpoint failures (be : Backend) (namespace : jsstring) (id : nat) (fs : list File) : nat :=
  match fs with
  | [] => 0
  | f :: rest =>
      (if failed (outcome be namespace id f) then 1 else 0)
      + failures be namespace (S id) rest
  end.

Fixpoint loop_trace (be : Backend) (namespace : jsstring) (id : nat) (fs : list File)
    (batch : list FileUploadStatus) : list Event :=
  match fs with
  | [] => []
  | f :: rest =>
      let after := settle f (outcome be namespace id f) batch in
      EvRequest id (PostUploadContract f namespace) :: EvSettled id :: EvSetFiles after
        :: loop_trace be namespace (S id) rest after
  end.

Fixpoint loop_batch (be : Backend) (namespace : jsstring) (id : nat) (fs : list File)
    (batch : list FileUploadStatus) : list FileUploadStatus :=
  match fs with
  | [] => batch
  | f :: rest => loop_batch be namespace (S id) rest (settle f (outcome be namespace id f) batch)
  end.

(** What an outcome of the upload of [f] does to one item of the batch. *)
Definition settle_item (f : File) (o : Outcome) (item : FileUploadStatus)
  : FileUploadStatus :=
  match o with
  | inr result => mark_result f (fileResult_of result) item
  | inl err => mark_error f err item
  end.

(** What the uploads of [fs], issued from [id] on, do to one item. *)
Fixpoint loop_item (be : Backend) (namespace : jsstring) (id : nat) (fs : list File)
    (item : FileUploadStatus) : FileUploadStatus :=
  match fs with
  | [] => item
  | f :: rest =>
      loop_item be namespace (S id) rest (settle_item f (outcome be namespace id f) item)
  end.

(** The file objects of a batch, as references. *)
Definition refs (batch : list FileUploadStatus) : list nat :=
  (fun item => file_ref (file item)) <$> batch.

(** The world a batch loop leaves: only [files] and the promise counter move. *)
Definition after_loop (w : World) (batch : list FileUploadStatus) (n : nat) : World :=
  set_next_promise n (set_upload (set_files batch) w).

(** The world [onDrop] leaves after an accepted batch. *)
Definition after_onDrop (be : Backend) (ns : jsstring) (fs : list File) (w : World) : World :=
  let n := next_promise w in
  let batch := UploadState.files (upload w) ++ (newFile <$> fs) in
  let e := failures be ns n fs in
  set_upload (set_globalMessage (Some (summary ns (length fs - e) e)))
    (after_loop w (loop_batch be ns n fs batch) (n + length fs)).

(* ===================================================================== *)
(** ** Sessions of the upload component: handlers interleaved at [await] *)
(* ===================================================================== *)

(** A handler suspended at an [await]: the promise it waits for and what it
    does with the outcome. *)
Record Task : Type := {
  task_type : Type;
  task_promise : Promise task_type;
  task_resume : AxiosError + task_type -> Prog unit
}.

Definition await_of {X} (e : Effect X) : (X -> Prog unit) -> option Task :=
  match e in Effect X return (X -> Prog unit) -> option Task with
  | Await p => fun k => Some {| task_promise := p; task_resume := k |}
  | _ => fun _ => None
  end.

(** A handler run up to its first [await], where it gives the event loop
    back, or to its end. *)
Fixpoint until_await (be : Backend) (p : Prog unit) (w : World)
  : World * option Task * list Event :=
  match p with
  | Ret _ => (w, None, [])
  | Vis e k =>
      match await_of e k with
      | Some t => (w, Some t, [])
      | None =>
          let '(x, w1, evs) := step be e w in
          let '(w2, t, tr) := until_await be (k x) w1 in
          (w2, t, evs ++ tr)
      end
  end.

(** The component between two events: its state, the handlers waiting for a
    response, and every file object dropped so far. *)
Record Session : Type := {
  world : World;
  tasks : list Task;
  dropped : list nat
}.

(** What can happen next: the user drops files, a pending request settles,
    the user clicks a delete control or edits the workspace field. *)
Inductive Action : Type :=
| Drop (acceptedFiles : list File)
| Settle (t : nat)
| ClickDelete (index : nat)
| ChangeNamespace (value : jsstring).

Definition handle (be : Backend) (p : Prog unit) (s : Session) : Session * list Event :=
  let '(w, t, tr) := until_await be p (world s) in
  ({| world := w; tasks := tasks s ++ option_list t; dropped := dropped s |}, tr).

Definition act (be : Backend) (a : Action) (s : Session) : Session * list Event :=
  match a with
  | Drop acceptedFiles =>
      handle be (onDrop (UploadState.namespace (upload (world s))) acceptedFiles)
        {| world := world s; tasks := tasks s;
           dropped := dropped s ++ (file_ref <$> acceptedFiles) |}
  | Settle t =>
      match tasks s !! t with
      | Some task =>
          let p := task_promise task in
          let o := be _ (promise_id p) (promise_request p) in
          let '(s', tr) :=
            handle be (task_resume task o)
              {| world := world s; tasks := delete t (tasks s); dropped := dropped s |} in
          (s', EvSettled (promise_id p) :: tr)
      | None => (s, [])
      end
  | ClickDelete index =>
      handle be (clickDelete (UploadState.files (upload (world s))) index) s
  | ChangeNamespace value => handle be (handleNamespaceChange value) s
  end.

(** The browser hands each drop file objects of its own: pairwise distinct
    and never seen before. *)
Definition fresh (a : Action) (s : Session) : Prop :=
  match a with
  | Drop acceptedFiles =>
      NoDup (file_ref <$> acceptedFiles)
      /\ forall r, r ∈ file_ref <$> acceptedFiles -> r ∉ dropped s
  | _ => True
  end.

(** A session: the actions taken in turn, each fresh when it is taken. *)
Fixpoint session (be : Backend) (actions : list Action) (s : Session) : Session :=
  match actions with
  | [] => s
  | a :: rest => session be rest (act be a s).1
  end.

Fixpoint all_fresh (be : Backend) (actions : list Action) (s : Session) : Prop :=
  match actions with
  | [] => True
  | a :: rest => fresh a s /\ all_fresh be rest (act be a s).1
  end.

(** A page just loaded. *)
Definition start (w : World) : Session := {| world := w; tasks := []; dropped := [] |}.

(** An [onDrop] waiting for the upload of [up_file], with [up_rest] still to
    upload. *)
Record Upload : Type := {
  up_namespace : jsstring;
  up_file : File;
  up_rest : list File;
  up_successCount : nat;
  up_errorCount : nat;
  up_id : nat
}.

Definition upload_task (u : Upload) : Task :=
  {| task_type := UploadResponse.t;
     task_promise := {| promise_id := up_id u;
                        promise_request := UploadContractRequest (up_file u) (up_namespace u) |};
     task_resume := fun r =>
       counts <- loop_body (up_file u) (upload_each (up_namespace u) (up_rest u))
                   (up_successCount u) (up_errorCount u) r ;;
       conclude (up_namespace u) counts |}.

Definition up_refs (u : Upload) : list nat := file_ref <$> (up_file u :: up_rest u).

(** What holds between two events of a session of fresh drops: the waiting
    handlers are uploads of [onDrop]; the file objects of the batch are
    pairwise distinct, and so are those the waiting uploads still have to
    process; all of them were dropped; and a settled item is awaited by no
    upload, while an item being uploaded is awaited by one. *)
Record consistent (s : Session) (us : list Upload) : Prop := {
  c_tasks : tasks s = upload_task <$> us;
  c_batch : NoDup (refs (UploadState.files (upload (world s))));
  c_uploads : NoDup (concat (up_refs <$> us));
  c_batch_dropped : forall r, r ∈ refs (UploadState.files (upload (world s))) -> r ∈ dropped s;
  c_uploads_dropped : forall r, r ∈ concat (up_refs <$> us) -> r ∈ dropped s;
  c_settled : forall item, item ∈ UploadState.files (upload (world s)) ->
              status item <> uploading ->
              file_ref (file item) ∉ concat (up_refs <$> us);
  c_uploading : forall item, item ∈ UploadState.files (upload (world s)) ->
                status item = uploading ->
                file_ref (file item) ∈ concat (up_refs <$> us)
}.

(** The batch of a session. *)
Definition batch_of (s : Session) : list FileUploadStatus :=
  UploadState.files (upload (world s)).

(** One step of a session, seen from the batch: a settled item stays as it
    is or leaves the batch; a file object that enters the batch was never
    dropped before; what was dropped stays so. *)
Definition evolves (s s' : Session) : Prop :=
  (forall item, item ∈ batch_of s -> status item <> uploading ->
     item ∈ batch_of s' \/ file_ref (file item) ∉ refs (batch_of s'))
  /\ (forall r, r ∈ refs (batch_of s') -> r ∈ refs (batch_of s) \/ r ∉ dropped s)
  /\ (forall r, r ∈ dropped s -> r ∈ dropped s').

(* ===================================================================== *)
(** ** The workspace identifier as the specification words it *)
(* ===================================================================== *)

(** A character of the class [[A-Za-z0-9_-]]. *)
Definition is_workspace_char (c : char16) : bool :=
  (  (chr "A" <=? c) && (c <=? chr "Z")
  || (chr "a" <=? c) && (c <=? chr "z")
  || (chr "0" <=? c) && (c <=? chr "9")
  || (c =? chr "_") || (c =? chr "-"))%N.

(** The characters of [x] that belong to the class, in their order. *)
Definition workspace_chars (x : jsstring) : jsstring := List.filter is_workspace_char x.

(* ===================================================================== *)
(** ** A sample session *)
(* ===================================================================== *)

Definition pdf (ref : nat) (name : string) : File :=
  {| file_ref := ref; file_name := lit name; file_content := [] |}.

(** A page freshly loaded with [stored] in local storage:
    [useState(getNamespace() || '')] and the other initial values. *)
Definition fresh_world (stored : gmap (list N) (list N)) : World :=
  {| upload := {| UploadState.files := [];
                  UploadState.globalMessage := None;
                  UploadState.namespace := opt_or (stored !! contractNamespace) [];
                  UploadState.namespaceError := [] |};
     querier := {| QueryState.query := []; QueryState.answer := [];
                   QueryState.sources := []; QueryState.loading := false;
                   QueryState.error := [] |};
     localStorage := stored;
     next_promise := 0 |}.

(** The world after the user typed [acme] in the workspace field. *)
Definition acme_world : World :=
  {| upload := {| UploadState.files := [];
                  UploadState.globalMessage := None;
                  UploadState.namespace := lit "acme";
                  UploadState.namespaceError := [] |};
     querier := {| QueryState.query := []; QueryState.answer := [];
                   QueryState.sources := []; QueryState.loading := false;
                   QueryState.error := [] |};
     localStorage := {[ contractNamespace := lit "acme" ]};
     next_promise := 0 |}.

(** A backend that takes [a.pdf], rejects the request for [b.pdf], answers
    the one for [c.pdf] without a [results] array and reports a per-file
    error for [d.pdf]; every query gets an answer with two sources. *)
Definition sample_backend : Backend :=
  fun T id r =>
    match r in Request T return AxiosError + T with
    | UploadContractRequest f ns =>
        match file_ref f with
        | 2 => inl {| detail := Some (lit "Unsupported PDF");
                      error_message := lit "Request failed with status code 400" |}
        | 3 => inr {| UploadResponse.message := lit "done";
                      UploadResponse.total_chunks := 5;
                      UploadResponse.results := None |}
        | 4 => inr {| UploadResponse.message := lit "done";
                      UploadResponse.total_chunks := 0;
                      UploadResponse.results :=
                        Some [ {| UploadResult.filename := file_name f;
                                  UploadResult.status := UploadResult.error;
                                  UploadResult.chunks_created := None;
                                  UploadResult.message := Some (lit "empty document") |} ] |}
        | _ => inr {| UploadResponse.message := lit "done";
                      UploadResponse.total_chunks := 12;
                      UploadResponse.results :=
                        Some [ {| UploadResult.filename := file_name f;
                                  UploadResult.status := UploadResult.success;
                                  UploadResult.chunks_created := Some 12%Z;
                                  UploadResult.message := None |} ] |}
        end
    | QueryRequest q k ns =>
        inr {| QueryResponse.answer := lit "Twelve months.";
               QueryResponse.sources :=
                 [ {| source_num := 1; document := lit "a.pdf"; page := Some 3%Z;
                      source := lit "/tmp/a.pdf"; excerpt := lit "The term is twelve months." |};
                   {| source_num := 2; document := lit "c.pdf"; page := None;
                      source := lit "/tmp/c.pdf"; excerpt := lit "Renewal is yearly." |} ] |}
    end.

(** The world once the sample batch of three has been processed. *)
Definition sample_done_world : World :=
  world_of (run sample_backend
              (onDrop (lit "acme") [pdf 1 "a.pdf"; pdf 2 "b.pdf"; pdf 3 "c.pdf"])
              acme_world).

(* ===================================================================== *)
(** ** What the components show and the keys they take *)
(* ===================================================================== *)

(** The status line of a row of the list in [ContractUpload]:
    [{status === 'uploading' && 'Processing...'}]
    [{status === 'success' && fileStatus.message}]
    [{status === 'error' && `Error: ${fileStatus.message}`}].
    A missing message renders as nothing in the second line and as
    [undefined] in the template literal of the third. *)
Definition rowText (fileStatus : FileUploadStatus) : jsstring :=
  match status fileStatus with
  | uploading => lit "Processing..."
  | success => match message fileStatus with Some m => m | None => [] end
  | error =>
      lit "Error: " ++ match message fileStatus with Some m => m | None => lit "undefined" end
  end.


(** [disabled={loading || !query.trim()}] of the submit button of
    [ContractQuery]. *)
Definition submitDisabled (q : QueryState.t) : bool :=
  QueryState.loading q || is_empty (trim (QueryState.query q)).

(** [handleKeyPress] of [ContractQuery]: whether [preventDefault] is called,
    and the handler the key starts ([handleSubmit] is called and not
    awaited). *)
Definition handleKeyPress (key : jsstring) (shiftKey : bool) (query : jsstring)
  : bool * Prog unit :=
  if bool_decide (key = lit "Enter") && negb shiftKey
  then (true, handleSubmit query)
  else (false, Ret tt).

(** The text [handleSubmit] puts in the error alert after a rejected query:
    [err.response?.data?.detail || err.message || 'Failed to get answer']. *)
Definition query_error_text (err : AxiosError) : jsstring :=
  js_or (opt_or (detail err) (error_message err)) (lit "Failed to get answer").

(* ===================================================================== *)
(** ** The rows of a batch, by status *)
(* ===================================================================== *)

Definition has_status (st : Status) (item : FileUploadStatus) : bool :=
  match status item, st with
  | uploading, uploading | success, success | error, error => true
  | _, _ => false
  end.

Definition rows_in (st : Status) (batch : list FileUploadStatus) : list FileUploadStatus :=
  List.filter (has_status st) batch.

(** The rows a batch run leaves for the files [fs], uploaded from promise
    [id] on, when each is settled by its own request. *)
Fixpoint settled_rows (be : Backend) (namespace : jsstring) (id : nat) (fs : list File)
  : list FileUploadStatus :=
  match fs with
  | [] => []
  | f :: rest =>
      settle_item f (outcome be namespace id f) (newFile f)
        :: settled_rows be namespace (S id) rest
  end.

(* ===================================================================== *)
(** ** More sample data *)
(* ===================================================================== *)

(** A backend that cannot be reached: every request is rejected, with no
    response and the message of the network layer. *)
Definition unreachable_backend : Backend :=
  fun T id r =>
    inl {| detail := None; error_message := lit "Network Error" |}.

(** [acme_world] with a question typed in the query field. *)
Definition asking_world : World :=
  {| upload := upload acme_world;
     querier := {| QueryState.query := lit "what is the term?"; QueryState.answer := [];
                   QueryState.sources := []; QueryState.loading := false;
                   QueryState.error := [] |};
     localStorage := localStorage acme_world;
     next_promise := 0 |}.

(** A page loaded when local storage holds a single space for the workspace,
    written there by something other than these components. *)
Definition blank_world : World := fresh_world {[ contractNamespace := lit " " ]}.

(* ===================================================================== *)
(** ** Running programs *)
(* ===================================================================== *)

Lemma run_bind {A B} (be : Backend) (m : Prog A) (f : A -> Prog B) (w : World) :
  run be (bind m f) w =
    let '(a, w1, t1) := run be m w in
    let '(b, w2, t2) := run be (f a) w1 in
    (b, w2, t1 ++ t2).
Proof.
  revert w. induction m as [a | X e k IH]; intros w; simpl.
  - destruct (run be (f a) w) as [[b w2] t2]. reflexivity.
  - destruct (step be e w) as [[x w1] evs]. rewrite IH.
    destruct (run be (k x) w1) as [[a w1'] t1].
    destruct (run be (f a) w1') as [[b w2] t2].
    rewrite app_assoc. reflexivity.
Qed.

Lemma world_eta (w : World) :
  {| upload := upload w; querier := querier w;
     localStorage := localStorage w; next_promise := next_promise w |} = w.
Proof. destruct w. reflexivity. Qed.

Lemma upload_eta (s : UploadState.t) :
  {| UploadState.files := UploadState.files s;
     UploadState.globalMessage := UploadState.globalMessage s;
     UploadState.namespace := UploadState.namespace s;
     UploadState.namespaceError := UploadState.namespaceError s |} = s.
Proof. destruct s. reflexivity. Qed.

Lemma after_loop_id (w : World) :
  after_loop w (UploadState.files (upload w)) (next_promise w) = w.
Proof. destruct w as [[] ? ? ?]. reflexivity. Qed.

(* ===================================================================== *)
(** ** Facts about traces *)
(* ===================================================================== *)

Lemma requests_app (t1 t2 : list Event) : requests (t1 ++ t2) = requests t1 ++ requests t2.
Proof.
  induction t1 as [|e t1 IH]; [reflexivity|].
  destruct e; simpl; rewrite ?IH; reflexivity.
Qed.

Lemma session_messages_app (t1 t2 : list Event) :
  session_messages (t1 ++ t2) = session_messages t1 ++ session_messages t2.
Proof.
  induction t1 as [|e t1 IH]; [reflexivity|].
  destruct e as [| [m|] | | | | | | | | |]; simpl; rewrite ?IH; reflexivity.
Qed.

Lemma files_after_app (b : list FileUploadStatus) (t1 t2 : list Event) :
  files_after b (t1 ++ t2) = files_after (files_after b t1) t2.
Proof.
  revert b. induction t1 as [|e t1 IH]; intros b; [reflexivity|].
  destruct e; simpl; apply IH.
Qed.

Lemma in_flight_from_app (t1 t2 : list Event) (pending : list nat) :
  in_flight_from pending (t1 ++ t2) = in_flight_from (in_flight_from pending t1) t2.
Proof.
  revert pending. induction t1 as [|e t1 IH]; intros pending; [reflexivity|].
  destruct e; simpl; apply IH.
Qed.

(** No prefix of a trace has more requests in flight than its peak. *)
Lemma in_flight_le_peak (tr : list Event) :
  forall (pending : list nat) (k : nat),
    length (in_flight_from pending (take k tr)) <= peak_from pending tr.
Proof.
  induction tr as [|e tr IH]; intros pending k.
  - destruct k; simpl; lia.
  - destruct k as [|k]; [destruct e; simpl; lia|].
    destruct e; simpl;
      match goal with
      | |- context [peak_from ?p tr] => specialize (IH p k)
      end; lia.
Qed.

Lemma files_history_from_snoc_message (tr : list Event) (m : option GlobalMessage)
    (resumed : option nat) :
  files_history_from resumed (tr ++ [EvSetGlobalMessage m]) = files_history_from resumed tr.
Proof.
  revert resumed. induction tr as [|e tr IH]; intros resumed; [reflexivity|].
  destruct e; simpl; rewrite ?IH; reflexivity.
Qed.

(* ===================================================================== *)
(** ** Outcomes, item by item *)
(* ===================================================================== *)

Lemma failed_fileResult (result : UploadResponse.t) :
  FileResult.status (fileResult_of result)
  = if failed (inr result) then UploadResult.error else UploadResult.success.
Proof.
  unfold fileResult_of, failed.
  destruct (UploadResponse.results result) as [[|r rs]|]; simpl; try reflexivity.
  destruct (UploadResult.status r); reflexivity.
Qed.

Lemma settle_fmap (f : File) (o : Outcome) (batch : list FileUploadStatus) :
  settle f o batch = settle_item f o <$> batch.
Proof. destruct o; reflexivity. Qed.

Lemma settle_item_file (f : File) (o : Outcome) (item : FileUploadStatus) :
  file (settle_item f o item) = file item.
Proof.
  destruct o; simpl; unfold mark_error, mark_result;
    destruct (same_file (file item) f); reflexivity.
Qed.

Lemma settle_item_other (f : File) (o : Outcome) (item : FileUploadStatus) :
  same_file (file item) f = false -> settle_item f o item = item.
Proof.
  intros H. destruct o; simpl; unfold mark_error, mark_result; rewrite H; reflexivity.
Qed.

Lemma settle_item_status (f : File) (o : Outcome) (item : FileUploadStatus) :
  same_file (file item) f = true ->
  status (settle_item f o item) = if failed o then error else success.
Proof.
  intros H. destruct o as [err|result]; simpl; unfold mark_error, mark_result; rewrite H.
  - reflexivity.
  - cbn [status]. rewrite failed_fileResult.
    cbn [failed]. destruct (UploadResponse.results result) as [[|r rs]|]; try reflexivity.
    destruct (UploadResult.status r); reflexivity.
Qed.

(* ===================================================================== *)
(** ** The upload loop *)
(* ===================================================================== *)

Section Loop.

Context (be : Backend) (ns : jsstring).

Lemma failures_le (fs : list File) (id : nat) :
  failures be ns id fs <= length fs.
Proof.
  revert id. induction fs as [|f rest IH]; intros id; simpl; [lia|].
  specialize (IH (S id)). destruct (failed _); lia.
Qed.

(** Symbolic execution of the [for] loop. *)
Lemma run_upload_each (fs : list File) :
  forall (successCount errorCount : nat) (w : World),
    run be (upload_each ns fs successCount errorCount) w =
      ((successCount + (length fs - failures be ns (next_promise w) fs),
        errorCount + failures be ns (next_promise w) fs),
       after_loop w (loop_batch be ns (next_promise w) fs (UploadState.files (upload w)))
                    (next_promise w + length fs),
       loop_trace be ns (next_promise w) fs (UploadState.files (upload w))).
Proof.
  induction fs as [|f rest IH]; intros sc ec w.
  - simpl. rewrite !Nat.add_0_r, after_loop_id. reflexivity.
  - destruct w as [[batch gm ns0 ne] q ls n].
    cbn [upload_each]. unfold uploadContract. cbn [bind perform run step].
    cbn [promise_id promise_request wire next_promise].
    fold (outcome be ns n f).
    pose proof (failures_le rest (S n)) as Hle.
    cbn [loop_trace loop_batch failures length next_promise upload UploadState.files].
    destruct (outcome be ns n f) as [err|result] eqn:Ho.
    + cbn [loop_body bind perform run step]. rewrite IH.
      cbn [failed settle].
      unfold after_loop, set_next_promise, set_upload, set_files. cbn.
      repeat f_equal; lia.
    + cbn [loop_body bind perform run step]. rewrite IH.
      cbn [settle]. rewrite (failed_fileResult result).
      unfold after_loop, set_next_promise, set_upload, set_files.
      destruct (failed (inr result)); cbn; repeat f_equal; lia.
Qed.

Lemma requests_loop_trace (fs : list File) :
  forall (id : nat) (batch : list FileUploadStatus),
    requests (loop_trace be ns id fs batch)
    = imap (fun i f => (id + i, PostUploadContract f ns)) fs.
Proof.
  induction fs as [|f rest IH]; intros id batch; [reflexivity|].
  cbn [loop_trace requests imap]. rewrite IH. f_equal.
  - f_equal. lia.
  - apply imap_ext. intros i g _. simpl. f_equal. lia.
Qed.

Lemma session_messages_loop_trace (fs : list File) :
  forall (id : nat) (batch : list FileUploadStatus),
    session_messages (loop_trace be ns id fs batch) = [].
Proof.
  induction fs as [|f rest IH]; intros id batch; [reflexivity|].
  cbn [loop_trace session_messages]. apply IH.
Qed.

(** The loop never has two requests in flight, and leaves none behind. *)
Lemma peak_loop_trace (fs : list File) :
  forall (id : nat) (batch : list FileUploadStatus) (tail : list Event),
    peak_from [] tail <= 1 ->
    peak_from [] (loop_trace be ns id fs batch ++ tail) <= 1.
Proof.
  induction fs as [|f rest IH]; intros id batch tail Htail; [exact Htail|].
  cbn [loop_trace app peak_from length List.filter].
  rewrite Nat.eqb_refl. cbn [negb length].
  specialize (IH (S id) (settle f (outcome be ns id f) batch) tail Htail). lia.
Qed.

Lemma in_flight_loop_trace (fs : list File) :
  forall (id : nat) (batch : list FileUploadStatus),
    in_flight (loop_trace be ns id fs batch) = [].
Proof.
  unfold in_flight.
  induction fs as [|f rest IH]; intros id batch; [reflexivity|].
  cbn [loop_trace in_flight_from app List.filter].
  rewrite Nat.eqb_refl. cbn [negb]. apply IH.
Qed.

Lemma loop_trace_app (fs1 fs2 : list File) :
  forall (id : nat) (batch : list FileUploadStatus),
    loop_trace be ns id (fs1 ++ fs2) batch
    = loop_trace be ns id fs1 batch
      ++ loop_trace be ns (id + length fs1) fs2 (loop_batch be ns id fs1 batch).
Proof.
  induction fs1 as [|f rest IH]; intros id batch; cbn [loop_trace loop_batch app length].
  - rewrite Nat.add_0_r. reflexivity.
  - rewrite IH. replace (S id + length rest) with (id + S (length rest)) by lia.
    reflexivity.
Qed.

Lemma files_after_loop_trace (fs : list File) :
  forall (id : nat) (batch : list FileUploadStatus),
    files_after batch (loop_trace be ns id fs batch) = loop_batch be ns id fs batch.
Proof.
  induction fs as [|f rest IH]; intros id batch; cbn [loop_trace loop_batch files_after];
    [reflexivity | apply IH].
Qed.

Lemma files_history_loop_trace (fs : list File) :
  forall (id : nat) (batch : list FileUploadStatus) (resumed : option nat),
    files_history_from resumed (loop_trace be ns id fs batch)
    = imap (fun k _ => (Some (id + k), loop_batch be ns id (take (S k) fs) batch)) fs.
Proof.
  induction fs as [|f rest IH]; intros id batch resumed; [reflexivity|].
  cbn [loop_trace files_history_from imap]. rewrite IH. f_equal.
  - rewrite Nat.add_0_r. reflexivity.
  - apply imap_ext. intros k g _. cbn [compose take loop_batch]. do 2 f_equal. lia.
Qed.

Lemma loop_batch_lookup (fs : list File) :
  forall (id : nat) (batch : list FileUploadStatus) (j : nat),
    loop_batch be ns id fs batch !! j = loop_item be ns id fs <$> batch !! j.
Proof.
  induction fs as [|f rest IH]; intros id batch j; cbn [loop_batch loop_item].
  - destruct (batch !! j); reflexivity.
  - rewrite IH, settle_fmap, list_lookup_fmap.
    destruct (batch !! j); reflexivity.
Qed.

Lemma loop_batch_length (fs : list File) :
  forall (id : nat) (batch : list FileUploadStatus),
    length (loop_batch be ns id fs batch) = length batch.
Proof.
  induction fs as [|f rest IH]; intros id batch; cbn [loop_batch]; [reflexivity|].
  rewrite IH, settle_fmap, length_fmap. reflexivity.
Qed.

Lemma loop_item_file (fs : list File) :
  forall (id : nat) (item : FileUploadStatus),
    file (loop_item be ns id fs item) = file item.
Proof.
  induction fs as [|f rest IH]; intros id item; cbn [loop_item]; [reflexivity|].
  rewrite IH. apply settle_item_file.
Qed.

(** An item whose file is none of [fs] is left as it is. *)
Lemma loop_item_other (fs : list File) :
  forall (id : nat) (item : FileUploadStatus),
    file_ref (file item) ∉ file_ref <$> fs ->
    loop_item be ns id fs item = item.
Proof.
  induction fs as [|f rest IH]; intros id item Hnot; cbn [loop_item]; [reflexivity|].
  rewrite fmap_cons, not_elem_of_cons in Hnot. destruct Hnot as [Hne Hrest].
  rewrite settle_item_other.
  - apply IH. exact Hrest.
  - unfold same_file. apply Nat.eqb_neq. exact Hne.
Qed.

(** The item of the [i]-th of [fs], when the files are pairwise distinct
    objects, is settled by the [i]-th upload and by no other. *)
Lemma loop_item_own (fs : list File) :
  forall (id i : nat) (f : File) (item : FileUploadStatus),
    NoDup (file_ref <$> fs) ->
    fs !! i = Some f ->
    file_ref (file item) = file_ref f ->
    loop_item be ns id fs item = settle_item f (outcome be ns (id + i) f) item.
Proof.
  induction fs as [|g rest IH]; intros id i f item Hnd Hi Href; [discriminate|].
  rewrite fmap_cons in Hnd. apply NoDup_cons in Hnd as [Hg Hnd].
  cbn [loop_item]. destruct i as [|i].
  - injection Hi as ->. rewrite Nat.add_0_r.
    apply loop_item_other. rewrite settle_item_file, Href. exact Hg.
  - cbn in Hi. rewrite settle_item_other.
    + rewrite (IH (S id) i f item Hnd Hi Href). do 2 f_equal. lia.
    + unfold same_file. apply Nat.eqb_neq. rewrite Href. intros Heq.
      apply Hg. rewrite <- Heq. apply list_elem_of_fmap. exists f. split; [reflexivity|].
      apply list_elem_of_lookup. exists i. exact Hi.
Qed.

Lemma refs_loop_batch (fs : list File) (id : nat)
    (batch : list FileUploadStatus) :
  refs (loop_batch be ns id fs batch) = refs batch.
Proof.
  unfold refs. apply list_eq. intros j.
  rewrite !list_lookup_fmap, loop_batch_lookup.
  destruct (batch !! j) as [item|]; [|reflexivity].
  cbn [fmap option_fmap option_map]. rewrite loop_item_file. reflexivity.
Qed.

End Loop.

(* ===================================================================== *)
(** ** The run of [onDrop] *)
(* ===================================================================== *)

(** Symbolic execution of [onDrop] past its two guards. *)
Lemma run_onDrop (be : Backend) (ns : jsstring) (fs : list File) (w : World) :
  fs <> [] -> trim ns <> [] ->
  let n := next_promise w in
  let batch := UploadState.files (upload w) ++ (newFile <$> fs) in
  let e := failures be ns n fs in
  run be (onDrop ns fs) w =
    (tt, after_onDrop be ns fs w,
     EvSetGlobalMessage None :: EvSetFiles batch
       :: loop_trace be ns n fs batch
       ++ [EvSetGlobalMessage (Some (summary ns (length fs - e) e))]).
Proof.
  intros Hfs Hns n batch e. unfold onDrop.
  destruct fs as [|f rest]; [congruence|].
  cbn [length Nat.eqb].
  destruct (trim ns) as [|c s] eqn:Htrim; [congruence|].
  cbn [is_empty bind perform run step].
  rewrite run_bind, run_upload_each.
  destruct w as [[batch0 gm ns0 ne] q ls n0].
  subst n batch e. unfold after_onDrop, after_loop.
  unfold set_next_promise, set_upload, set_files, set_globalMessage.
  cbn. reflexivity.
Qed.

(** The run of [onDrop] when no workspace is bound. *)
Lemma run_onDrop_unbound (be : Backend) (ns : jsstring) (fs : list File) (w : World) :
  fs <> [] -> trim ns = [] ->
  run be (onDrop ns fs) w =
    (tt,
     set_upload (set_globalMessage (Some missing_workspace_message))
       (set_upload (set_namespaceError (lit "Workspace name is required")) w),
     [EvSetNamespaceError (lit "Workspace name is required");
      EvSetGlobalMessage (Some missing_workspace_message)]).
Proof.
  intros Hfs Hns. unfold onDrop.
  destruct fs as [|f rest]; [congruence|].
  cbn [length Nat.eqb]. rewrite Hns. reflexivity.
Qed.

(** The step of [onDrop] that uploads the [i]-th file. *)
Lemma onDrop_step (be : Backend) (ns : jsstring) (fs : list File) (w : World)
    (i : nat) (f : File) :
  trim ns <> [] ->
  fs !! i = Some f ->
  let n := next_promise w in
  let prev := UploadState.files (upload w) in
  let before := loop_batch be ns n (take i fs) (prev ++ (newFile <$> fs)) in
  exists tr1 tr2,
    trace_of (run be (onDrop ns fs) w)
    = tr1 ++ [EvRequest (n + i) (PostUploadContract f ns); EvSettled (n + i);
              EvSetFiles (settle_item f (outcome be ns (n + i) f) <$> before)] ++ tr2
    /\ length (requests tr1) = i
    /\ files_after prev tr1 = before.
Proof.
  intros Hns Hi n prev before.
  assert (Hfs : fs <> []) by (intros ->; discriminate).
  rewrite (run_onDrop be ns fs w Hfs Hns). cbn [trace_of snd]. fold n prev.
  set (batch := prev ++ (newFile <$> fs)).
  set (last := EvSetGlobalMessage (Some _)).
  pose proof (take_drop_middle fs i f Hi) as Hsplit.
  assert (Hlen : length (take i fs) = i).
  { apply length_take_le. apply lookup_lt_Some in Hi. lia. }
  exists (EvSetGlobalMessage None :: EvSetFiles batch :: loop_trace be ns n (take i fs) batch),
         (loop_trace be ns (S (n + i)) (drop (S i) fs)
            (settle_item f (outcome be ns (n + i) f) <$> before) ++ [last]).
  split; [|split].
  - rewrite <- Hsplit at 1. rewrite loop_trace_app, Hlen.
    cbn [loop_trace]. fold before. rewrite settle_fmap.
    cbn [app]. rewrite <- app_assoc. reflexivity.
  - cbn [requests]. rewrite requests_loop_trace, length_imap. exact Hlen.
  - cbn [files_after]. apply files_after_loop_trace.
Qed.

(** The item the batch holds for the [i]-th file, when its upload starts. *)
Lemma onDrop_own_item (be : Backend) (ns : jsstring) (fs : list File)
    (prev : list FileUploadStatus) (n i : nat) (f : File) :
  fs !! i = Some f ->
  exists item,
    loop_batch be ns n (take i fs) (prev ++ (newFile <$> fs)) !! (length prev + i) = Some item
    /\ file item = f.
Proof.
  intros Hi. exists (loop_item be ns n (take i fs) (newFile f)). split.
  - rewrite loop_batch_lookup, lookup_app_r by lia.
    replace (length prev + i - length prev) with i by lia.
    rewrite list_lookup_fmap, Hi. reflexivity.
  - rewrite loop_item_file. reflexivity.
Qed.

(** The successive values of [files] in a run of [onDrop]. *)
Lemma files_history_onDrop (be : Backend) (ns : jsstring) (fs : list File) (w : World) :
  fs <> [] -> trim ns <> [] ->
  let n := next_promise w in
  let batch := UploadState.files (upload w) ++ (newFile <$> fs) in
  files_history (trace_of (run be (onDrop ns fs) w))
  = (None, batch)
      :: imap (fun k _ => (Some (n + k), loop_batch be ns n (take (S k) fs) batch)) fs.
Proof.
  intros Hfs Hns n batch. rewrite (run_onDrop be ns fs w Hfs Hns).
  unfold files_history. cbn [trace_of snd files_history_from]. f_equal.
  rewrite files_history_from_snoc_message. apply files_history_loop_trace.
Qed.

Lemma files_history_onDrop_lookup (be : Backend) (ns : jsstring) (fs : list File)
    (w : World) (k : nat) (r : option nat) (b : list FileUploadStatus) :
  fs <> [] -> trim ns <> [] ->
  let n := next_promise w in
  let batch := UploadState.files (upload w) ++ (newFile <$> fs) in
  files_history (trace_of (run be (onDrop ns fs) w)) !! k = Some (r, b) ->
  k <= length fs /\ b = loop_batch be ns n (take k fs) batch
  /\ r = match k with 0 => None | S k' => Some (n + k') end.
Proof.
  intros Hfs Hns n batch. rewrite (files_history_onDrop be ns fs w Hfs Hns). fold n batch.
  destruct k as [|k]; cbn [lookup list_lookup].
  - intros [= <- <-]. split; [lia|]. split; reflexivity.
  - change (imap (fun k _ => (Some (n + k), loop_batch be ns n (take (S k) fs) batch)) fs !! k
            = Some (r, b) -> S k <= length fs
                             /\ b = loop_batch be ns n (take (S k) fs) batch
                             /\ r = Some (n + k)).
    rewrite list_lookup_imap. destruct (fs !! k) as [g|] eqn:Hk; cbn; [|discriminate].
    intros [= <- <-]. apply lookup_lt_Some in Hk. split; [lia|]. split; reflexivity.
Qed.

(** A batch run only adds the items of the accepted files: file objects
    that are pairwise distinct before, and fresh, stay pairwise distinct. *)
Lemma onDrop_refs (be : Backend) (ns : jsstring) (fs : list File) (w : World) :
  fs <> [] -> trim ns <> [] ->
  refs (UploadState.files (upload (world_of (run be (onDrop ns fs) w))))
  = refs (UploadState.files (upload w)) ++ (file_ref <$> fs).
Proof.
  intros Hfs Hns. rewrite (run_onDrop be ns fs w Hfs Hns).
  cbn [world_of fst snd]. unfold after_onDrop, after_loop.
  cbn [set_upload set_next_promise set_globalMessage set_files upload UploadState.files].
  rewrite refs_loop_batch. unfold refs. rewrite fmap_app, <- list_fmap_compose.
  reflexivity.
Qed.

(* ===================================================================== *)
(** ** Sanitising the workspace name *)
(* ===================================================================== *)

Ltac chr_values :=
  change (chr "a") with 97%N in *; change (chr "z") with 122%N in *;
  change (chr "A") with 65%N in *; change (chr "Z") with 90%N in *;
  change (chr "0") with 48%N in *; change (chr "9") with 57%N in *;
  change (chr "-") with 45%N in *; change (chr "_") with 95%N in *.

Lemma not_namespace_char_spec (c : char16) :
  class_matches not_namespace_char c = negb (is_workspace_char c).
Proof.
  unfold class_matches, not_namespace_char, is_workspace_char.
  cbn [negated items existsb item_matches]. chr_values.
  destruct (97 <=? c)%N, (c <=? 122)%N, (65 <=? c)%N, (c <=? 90)%N,
           (48 <=? c)%N, (c <=? 57)%N, (c =? 45)%N, (c =? 95)%N; reflexivity.
Qed.

(** The global replace keeps exactly the characters of the class. *)
Lemma sanitize_filter (x : jsstring) :
  replace_all not_namespace_char [] x = workspace_chars x.
Proof.
  unfold replace_all, workspace_chars.
  induction x as [|c x IH]; [reflexivity|].
  cbn [flat_map List.filter]. rewrite not_namespace_char_spec, IH.
  destruct (is_workspace_char c); reflexivity.
Qed.

Lemma sublist_filter {A} (p : A -> bool) (l : list A) : sublist (List.filter p l) l.
Proof.
  induction l as [|a l IH]; simpl; [constructor|].
  destruct (p a); [apply sublist_skip | apply sublist_cons]; exact IH.
Qed.

Lemma white_space_not_workspace_char (c : char16) :
  is_workspace_char c = true -> is_white_space c = false.
Proof.
  unfold is_workspace_char. chr_values. intros H.
  rewrite !orb_true_iff, !andb_true_iff, !N.leb_le, !N.eqb_eq in H.
  destruct (is_white_space c) eqn:E; [|reflexivity].
  unfold is_white_space in E.
  rewrite !orb_true_iff, !andb_true_iff, !N.leb_le, !N.eqb_eq in E. lia.
Qed.

(** A non-empty sanitised workspace name is not blank: it passes the guard
    of [onDrop]. *)
Lemma workspace_id_not_blank (ns : jsstring) :
  Forall (fun c => is_workspace_char c = true) ns -> ns <> [] -> trim ns <> [].
Proof.
  intros Hall Hne. destruct ns as [|c s]; [congruence|].
  inversion Hall as [|? ? Hc Hs]; subst.
  unfold trim, trimEnd. cbn [trimStart].
  rewrite (white_space_not_workspace_char c Hc).
  (* the last character of [c :: s] is a class character too *)
  destruct (rev (c :: s)) as [|d r] eqn:Hrev.
  - apply (f_equal (@length _)) in Hrev. rewrite length_rev in Hrev. discriminate.
  - assert (Hd : is_workspace_char d = true).
    { assert (Hin : In d (c :: s)).
      { apply in_rev. rewrite Hrev. left. reflexivity. }
      rewrite Forall_forall in Hall. apply Hall. apply list_elem_of_In. exact Hin. }
    cbn [trimStart]. rewrite (white_space_not_workspace_char d Hd).
    intros Hnil. apply (f_equal (@length _)) in Hnil.
    rewrite length_rev in Hnil. discriminate.
Qed.

(** The workspace name the upload component holds after any input is a
    workspace identifier, the one in local storage; unless it is empty it
    passes the guard of [onDrop]. *)
Lemma handleNamespaceChange_binds (be : Backend) (w : World) (value : jsstring) :
  let w' := world_of (run be (handleNamespaceChange value) w) in
  UploadState.namespace (upload w') = workspace_chars value
  /\ localStorage w' !! contractNamespace = Some (UploadState.namespace (upload w'))
  /\ Forall (fun c => is_workspace_char c = true) (UploadState.namespace (upload w'))
  /\ (UploadState.namespace (upload w') <> [] -> trim (UploadState.namespace (upload w')) <> []).
Proof.
  cbn zeta. unfold handleNamespaceChange, setNamespace. rewrite sanitize_filter.
  cbn [bind perform run step world_of fst snd localStorage upload set_upload
       set_localStorage set_namespace set_namespaceError UploadState.namespace].
  rewrite lookup_insert_eq.
  assert (Hall : Forall (fun c => is_workspace_char c = true) (workspace_chars value)).
  { unfold workspace_chars. apply Forall_forall. intros c Hc.
    apply list_elem_of_In, filter_In in Hc. tauto. }
  split; [reflexivity|]. split; [reflexivity|]. split; [exact Hall|].
  apply workspace_id_not_blank. exact Hall.
Qed.

(* ===================================================================== *)
(** ** Removing items *)
(* ===================================================================== *)

Lemma filter_keeps_all (f : File) (batch : list FileUploadStatus) :
  file_ref f ∉ refs batch ->
  List.filter (fun x => negb (same_file (file x) f)) batch = batch.
Proof.
  unfold refs. induction batch as [|a rest IH]; intros Hnot; [reflexivity|].
  rewrite fmap_cons, not_elem_of_cons in Hnot. destruct Hnot as [Hne Hrest].
  cbn [List.filter]. unfold same_file at 1.
  destruct (Nat.eqb_spec (file_ref (file a)) (file_ref f)) as [Heq|_]; [congruence|].
  cbn [negb]. rewrite IH by exact Hrest. reflexivity.
Qed.

(** In a batch of pairwise distinct file objects, filtering on the file of
    the item at [index] deletes that position and nothing else. *)
Lemma filter_is_delete (batch : list FileUploadStatus) :
  forall (index : nat) (item : FileUploadStatus),
    NoDup (refs batch) ->
    batch !! index = Some item ->
    List.filter (fun x => negb (same_file (file x) (file item))) batch = delete index batch.
Proof.
  unfold refs. induction batch as [|a rest IH]; intros index item Hnd Hi; [discriminate|].
  rewrite fmap_cons in Hnd. apply NoDup_cons in Hnd as [Ha Hnd].
  destruct index as [|index].
  - injection Hi as ->. cbn [List.filter delete list_delete].
    unfold same_file at 1. rewrite Nat.eqb_refl. cbn [negb].
    apply filter_keeps_all. exact Ha.
  - cbn in Hi. cbn [List.filter]. unfold same_file at 1.
    destruct (Nat.eqb_spec (file_ref (file a)) (file_ref (file item))) as [Heq|_].
    + exfalso. apply Ha. rewrite Heq.
      apply list_elem_of_fmap. exists item. split; [reflexivity|].
      apply list_elem_of_lookup. exists index. exact Hi.
    + cbn [negb]. cbn [delete list_delete]. f_equal.
      change (list_delete index rest) with (delete index rest).
      apply IH; assumption.
Qed.

Lemma refs_filter_sublist (p : FileUploadStatus -> bool) (batch : list FileUploadStatus) :
  sublist (refs (List.filter p batch)) (refs batch).
Proof.
  unfold refs. induction batch as [|a rest IH]; cbn [List.filter]; [constructor|].
  destruct (p a); rewrite ?fmap_cons; [apply sublist_skip | apply sublist_cons]; exact IH.
Qed.

(** Removing an item keeps the file objects of the batch pairwise distinct. *)
Lemma clickDelete_refs (be : Backend) (w : World) (index : nat) :
  NoDup (refs (UploadState.files (upload w))) ->
  NoDup (refs (UploadState.files
                 (upload (world_of (run be (clickDelete (UploadState.files (upload w)) index) w))))).
Proof.
  intros Hnd. unfold clickDelete, deleteButton, removeFile.
  destruct (UploadState.files (upload w) !! index) as [item|]; [|exact Hnd].
  destruct (status item); [exact Hnd| |];
    cbn [perform run step world_of fst snd upload set_upload set_files UploadState.files];
    (eapply sublist_NoDup; [exact Hnd | apply refs_filter_sublist]).
Qed.

(** [removeFile] itself does not look at the status: it is the missing
    delete control that protects an item being uploaded. *)
Lemma removeFile_any_status (be : Backend) (w : World) (f : File) :
  UploadState.files (upload (world_of (run be (removeFile f) w)))
  = List.filter (fun item => negb (same_file (file item) f)) (UploadState.files (upload w)).
Proof. reflexivity. Qed.

(* ===================================================================== *)
(** ** Sessions: what holds between two events *)
(* ===================================================================== *)

Lemma until_await_loop (be : Backend) (ns : jsstring) (fs : list File) (sc ec : nat) (w : World) :
  until_await be (counts <- upload_each ns fs sc ec ;; conclude ns counts) w =
  match fs with
  | [] => (set_upload (set_globalMessage (Some (summary ns sc ec))) w, None,
           [EvSetGlobalMessage (Some (summary ns sc ec))])
  | f :: rest =>
      (set_next_promise (S (next_promise w)) w,
       Some (upload_task {| up_namespace := ns; up_file := f; up_rest := rest;
                            up_successCount := sc; up_errorCount := ec;
                            up_id := next_promise w |}),
       [EvRequest (next_promise w) (PostUploadContract f ns)])
  end.
Proof. destruct fs as [|f rest]; reflexivity. Qed.

Lemma refs_settle (f : File) (o : Outcome) (batch : list FileUploadStatus) :
  refs (settle_item f o <$> batch) = refs batch.
Proof.
  unfold refs. rewrite <- list_fmap_compose. apply list_fmap_ext.
  intros i item _. cbn. rewrite settle_item_file. reflexivity.
Qed.

Lemma elem_of_refs (item : FileUploadStatus) (batch : list FileUploadStatus) :
  item ∈ batch -> file_ref (file item) ∈ refs batch.
Proof. intros H. unfold refs. apply list_elem_of_fmap. exists item. split; [reflexivity | exact H]. Qed.

Lemma consistent_ChangeNamespace (be : Backend) (s : Session) (us : list Upload) (v : jsstring) :
  consistent s us ->
  consistent (act be (ChangeNamespace v) s).1 us /\ evolves s (act be (ChangeNamespace v) s).1.
Proof.
  intros [Ht Hb Hu Hbd Hud Hs Hp]. destruct s as [w ts dr]. cbn in *.
  split.
  - constructor; cbn; rewrite ?app_nil_r; assumption.
  - unfold evolves, batch_of. cbn. repeat split; auto.
Qed.

Lemma elem_of_filter_bool {A} (p : A -> bool) (l : list A) (x : A) :
  x ∈ List.filter p l <-> x ∈ l /\ p x = true.
Proof. rewrite !list_elem_of_In. apply filter_In. Qed.

Lemma consistent_ClickDelete (be : Backend) (s : Session) (us : list Upload) (index : nat) :
  consistent s us ->
  consistent (act be (ClickDelete index) s).1 us /\ evolves s (act be (ClickDelete index) s).1.
Proof.
  intros [Ht Hb Hu Hbd Hud Hs Hp]. destruct s as [w ts dr]. cbn in *.
  unfold clickDelete, deleteButton, removeFile.
  assert (Hsame : consistent {| world := w; tasks := ts ++ []; dropped := dr |} us
                  /\ evolves {| world := w; tasks := ts; dropped := dr |}
                             {| world := w; tasks := ts ++ []; dropped := dr |}).
  { split; [constructor; cbn; rewrite ?app_nil_r; assumption|].
    unfold evolves, batch_of. cbn. repeat split; auto. }
  destruct (UploadState.files (upload w) !! index) as [target|]; [|exact Hsame].
  destruct (status target); [exact Hsame| |];
    (cbn; set (keep := fun f => negb (same_file (file f) (file target)));
     assert (Hsub : forall item, item ∈ List.filter keep (UploadState.files (upload w)) ->
                                 item ∈ UploadState.files (upload w))
       by (intros item Hin; apply elem_of_filter_bool in Hin; tauto);
     assert (Hrsub : forall r, r ∈ refs (List.filter keep (UploadState.files (upload w))) ->
                               r ∈ refs (UploadState.files (upload w)))
       by (intros r Hr; eapply elem_of_sublist; [exact Hr | apply refs_filter_sublist]);
     split;
     [ constructor; cbn; rewrite ?app_nil_r; auto;
       eapply sublist_NoDup; [exact Hb | apply refs_filter_sublist]
     | unfold evolves, batch_of; cbn; split; [|split; auto];
       intros item Hin Hst;
       destruct (keep item) eqn:Hk;
       [ left; apply elem_of_filter_bool; split; assumption
       | right; intros Hr; unfold refs in Hr;
         apply list_elem_of_fmap in Hr as (other & Href & Hother);
         apply elem_of_filter_bool in Hother as [_ Hko];
         unfold keep, same_file in Hk, Hko;
         apply negb_false_iff, Nat.eqb_eq in Hk;
         apply negb_true_iff, Nat.eqb_neq in Hko; congruence ] ]).
Qed.

Lemma consistent_Drop (be : Backend) (s : Session) (us : list Upload) (fs : list File) :
  consistent s us -> fresh (Drop fs) s ->
  exists us', consistent (act be (Drop fs) s).1 us' /\ evolves s (act be (Drop fs) s).1.
Proof.
  intros [Ht Hb Hu Hbd Hud Hs Hp] [Hnd Hfresh]. destruct s as [w ts dr]. cbn in *.
  assert (Hsame : forall w',
             UploadState.files (upload w') = UploadState.files (upload w) ->
             consistent {| world := w'; tasks := ts ++ []; dropped := dr ++ (file_ref <$> fs) |} us
             /\ evolves {| world := w; tasks := ts; dropped := dr |}
                        {| world := w'; tasks := ts ++ []; dropped := dr ++ (file_ref <$> fs) |}).
  { intros w' Hw'. split.
    - constructor; cbn; rewrite ?app_nil_r, ?Hw'; auto.
      + intros r Hr. apply elem_of_app. left. auto.
      + intros r Hr. apply elem_of_app. left. auto.
    - unfold evolves, batch_of. cbn. rewrite Hw'. repeat split; auto.
      intros r Hr. apply elem_of_app. left. exact Hr. }
  unfold onDrop. destruct fs as [|f rest].
  { exists us. cbn. apply Hsame. reflexivity. }
  cbn [length Nat.eqb].
  destruct (trim (UploadState.namespace (upload w))) as [|c ns'] eqn:Hns.
  { exists us. cbn. apply Hsame. reflexivity. }
  cbn [is_empty]. set (ns := UploadState.namespace (upload w)).
  set (u := {| up_namespace := ns; up_file := f; up_rest := rest;
               up_successCount := 0; up_errorCount := 0; up_id := next_promise w |}).
  exists (us ++ [u]). cbn.
  set (new := newFile f :: (newFile <$> rest)).
  assert (Hnewrefs : refs new = file_ref <$> (f :: rest)).
  { unfold refs, new. cbn. f_equal. rewrite <- list_fmap_compose. reflexivity. }
  assert (Hconcat : concat (up_refs <$> (us ++ [u])) = concat (up_refs <$> us) ++ up_refs u).
  { rewrite fmap_app, concat_app. cbn. rewrite app_nil_r. reflexivity. }
  split.
  - constructor; cbn.
    + rewrite fmap_app, Ht. reflexivity.
    + unfold refs. rewrite fmap_app. fold (refs (UploadState.files (upload w))) (refs new).
      rewrite Hnewrefs. apply NoDup_app. split; [exact Hb|]. split; [|exact Hnd].
      intros r Hr Hr'. apply (Hfresh r Hr'). auto.
    + rewrite Hconcat. apply NoDup_app. split; [exact Hu|]. split; [|exact Hnd].
      intros r Hr Hr'. apply (Hfresh r Hr'). auto.
    + intros r Hr. unfold refs in Hr. rewrite fmap_app in Hr.
      fold (refs (UploadState.files (upload w))) (refs new) in Hr. rewrite Hnewrefs in Hr.
      apply elem_of_app in Hr as [Hr|Hr]; apply elem_of_app; [left; auto | right; exact Hr].
    + intros r Hr. rewrite Hconcat in Hr.
      apply elem_of_app in Hr as [Hr|Hr]; apply elem_of_app; [left; auto | right; exact Hr].
    + intros item Hin Hst. rewrite Hconcat.
      apply elem_of_app in Hin as [Hin|Hin].
      * intros Hr. apply elem_of_app in Hr as [Hr|Hr].
        -- exact (Hs item Hin Hst Hr).
        -- apply (Hfresh _ Hr). apply Hbd. apply elem_of_refs. exact Hin.
      * exfalso. apply Hst. unfold new in Hin. rewrite <- fmap_cons in Hin.
        apply list_elem_of_fmap in Hin as (g & -> & _). reflexivity.
    + intros item Hin Hst. rewrite Hconcat. apply elem_of_app.
      apply elem_of_app in Hin as [Hin|Hin]; [left; auto|right].
      unfold up_refs. cbn [up_file up_rest u]. rewrite <- Hnewrefs.
      apply elem_of_refs. exact Hin.
  - unfold evolves, batch_of. cbn. split; [|split].
    + intros item Hin _. left. apply elem_of_app. left. exact Hin.
    + intros r Hr. unfold refs in Hr. rewrite fmap_app in Hr.
      fold (refs (UploadState.files (upload w))) (refs new) in Hr. rewrite Hnewrefs in Hr.
      apply elem_of_app in Hr as [Hr|Hr]; [left; exact Hr | right; apply Hfresh; exact Hr].
    + intros r Hr. apply elem_of_app. left. exact Hr.
Qed.

Lemma concat_delete_upload (us : list Upload) (t : nat) (u : Upload) :
  us !! t = Some u ->
  concat (up_refs <$> us)
  ≡ₚ file_ref (up_file u)
     :: (concat (up_refs <$> delete t us) ++ (file_ref <$> up_rest u)).
Proof.
  intros Ht. rewrite <- (take_drop_middle us t u Ht) at 1.
  rewrite delete_take_drop, !fmap_app, !concat_app, fmap_cons, concat_cons.
  unfold up_refs at 2. rewrite fmap_cons.
  set (A := concat (up_refs <$> take t us)).
  set (B := concat (up_refs <$> drop (S t) us)).
  set (R := file_ref <$> up_rest u).
  rewrite <- app_comm_cons, <- Permutation_middle. constructor.
  rewrite <- (assoc_L app A B R). apply Permutation_app_head.
  apply Permutation_app_comm.
Qed.

Lemma consistent_Settle (be : Backend) (s : Session) (us : list Upload) (t : nat) :
  consistent s us ->
  exists us', consistent (act be (Settle t) s).1 us' /\ evolves s (act be (Settle t) s).1.
Proof.
  intros Hc. pose proof Hc as [Ht Hb Hu Hbd Hud Hs Hp].
  destruct s as [w ts dr]. cbn in Ht, Hb, Hu, Hbd, Hud, Hs, Hp. cbn [act tasks].
  destruct (ts !! t) as [task|] eqn:Htask.
  2:{ exists us. split; [exact Hc|]. unfold evolves, batch_of. cbn. repeat split; auto. }
  rewrite Ht, list_lookup_fmap in Htask.
  destruct (us !! t) as [u|] eqn:Hu_t; [|discriminate]. injection Htask as <-.
  destruct u as [ns f rest sc ec id].
  cbn [upload_task task_promise task_resume task_type promise_id promise_request
       up_namespace up_file up_rest up_successCount up_errorCount up_id].
  fold (outcome be ns id f). set (o := outcome be ns id f).
  set (batch := UploadState.files (upload w)) in *.
  pose proof (concat_delete_upload us t _ Hu_t) as Hperm. cbn [up_file up_rest] in Hperm.
  assert (Hnd' : NoDup (file_ref f :: (concat (up_refs <$> delete t us) ++ (file_ref <$> rest)))).
  { rewrite <- Hperm. exact Hu. }
  apply NoDup_cons in Hnd' as [Hf Hnd'].
  (* the state after the update of the batch, and the counters *)
  set (sc' := if failed o then sc else S sc).
  set (ec' := if failed o then S ec else ec).
  assert (Hresume :
    until_await be (counts <- loop_body f (upload_each ns rest) sc ec o ;; conclude ns counts) w
    = let w1 := set_upload (set_files (settle_item f o <$> batch)) w in
      let '(w2, t2, tr) :=
        until_await be (counts <- upload_each ns rest sc' ec' ;; conclude ns counts) w1 in
      (w2, t2, EvSetFiles (settle_item f o <$> batch) :: tr)).
  { subst sc' ec'. destruct o as [err|result]; cbn [loop_body failed].
    - reflexivity.
    - fold (failed (inr result)). rewrite (failed_fileResult result).
      destruct (failed (inr result)); reflexivity. }
  unfold handle. cbn [world tasks dropped]. rewrite Hresume. cbn zeta.
  rewrite until_await_loop.
  set (w1 := set_upload (set_files (settle_item f o <$> batch)) w).
  (* whichever way the loop goes on, the waiting uploads are the others and the rest *)
  set (us' := delete t us ++
              match rest with
              | [] => []
              | g :: rest' => [ {| up_namespace := ns; up_file := g; up_rest := rest';
                                   up_successCount := sc'; up_errorCount := ec';
                                   up_id := next_promise w1 |} ]
              end).
  assert (Hconcat : concat (up_refs <$> us')
                    = concat (up_refs <$> delete t us) ++ (file_ref <$> rest)).
  { subst us'. rewrite fmap_app, concat_app. f_equal.
    destruct rest as [|g rest']; [reflexivity|]. cbn. rewrite app_nil_r. reflexivity. }
  assert (Hin_old : forall r, r ∈ concat (up_refs <$> us') -> r ∈ concat (up_refs <$> us)).
  { intros r Hr. rewrite Hperm. rewrite Hconcat in Hr. right. exact Hr. }
  assert (Hfiles : forall w2, UploadState.files (upload w2) = settle_item f o <$> batch ->
            forall ts2, ts2 = upload_task <$> us' ->
            consistent {| world := w2; tasks := ts2; dropped := dr |} us'
            /\ evolves {| world := w; tasks := ts; dropped := dr |}
                       {| world := w2; tasks := ts2; dropped := dr |}).
  { intros w2 Hw2 ts2 Hts2. split.
    - constructor; cbn; rewrite ?Hw2, ?refs_settle.
      + exact Hts2.
      + exact Hb.
      + rewrite Hconcat. exact Hnd'.
      + exact Hbd.
      + intros r Hr. apply Hud, Hin_old, Hr.
      + intros item' Hin Hst. apply list_elem_of_fmap in Hin as (item & -> & Hin).
        rewrite settle_item_file.
        destruct (same_file (file item) f) eqn:Hsame.
        * unfold same_file in Hsame. apply Nat.eqb_eq in Hsame. rewrite Hsame, Hconcat.
          exact Hf.
        * rewrite settle_item_other in Hst by exact Hsame.
          intros Hr. apply (Hs item Hin Hst). apply Hin_old, Hr.
      + intros item' Hin Hst. apply list_elem_of_fmap in Hin as (item & -> & Hin).
        rewrite settle_item_file.
        destruct (same_file (file item) f) eqn:Hsame.
        * rewrite settle_item_status in Hst by exact Hsame.
          destruct (failed o); discriminate.
        * rewrite settle_item_other in Hst by exact Hsame.
          pose proof (Hp item Hin Hst) as Hr. rewrite Hperm in Hr.
          apply elem_of_cons in Hr as [Hr|Hr].
          -- unfold same_file in Hsame. apply Nat.eqb_neq in Hsame. congruence.
          -- rewrite Hconcat. exact Hr.
    - unfold evolves, batch_of. cbn. rewrite Hw2, refs_settle. split; [|split; auto].
      intros item Hin Hst. left. apply list_elem_of_fmap. exists item. split; [|exact Hin].
      symmetry. apply settle_item_other. unfold same_file. apply Nat.eqb_neq.
      intros Heq. apply (Hs item Hin Hst). rewrite Hperm, Heq. left. }
  exists us'. subst us'.
  destruct rest as [|g rest']; cbn [fst snd option_list];
    apply Hfiles; try reflexivity;
    cbn [option_list]; rewrite ?app_nil_r, ?fmap_app, list_fmap_delete, Ht; reflexivity.
Qed.

(** Each action of a session of fresh drops keeps it consistent. *)
Lemma act_consistent (be : Backend) (a : Action) (s : Session) (us : list Upload) :
  consistent s us -> fresh a s ->
  exists us', consistent (act be a s).1 us' /\ evolves s (act be a s).1.
Proof.
  intros Hc Hfresh. destruct a as [fs | t | index | v].
  - exact (consistent_Drop be s us fs Hc Hfresh).
  - exact (consistent_Settle be s us t Hc).
  - exists us. exact (consistent_ClickDelete be s us index Hc).
  - exists us. exact (consistent_ChangeNamespace be s us v Hc).
Qed.

Lemma start_consistent (w : World) :
  UploadState.files (upload w) = [] -> consistent (start w) [].
Proof.
  intros Hw. constructor; cbn; rewrite ?Hw; cbn.
  - reflexivity.
  - apply NoDup_nil_2.
  - apply NoDup_nil_2.
  - intros r Hr. apply elem_of_nil in Hr. contradiction.
  - intros r Hr. apply elem_of_nil in Hr. contradiction.
  - intros item Hin. apply elem_of_nil in Hin. contradiction.
  - intros item Hin. apply elem_of_nil in Hin. contradiction.
Qed.

(** A session of fresh drops is consistent at every moment: in particular
    the file objects of its batch are pairwise distinct, and every item
    being uploaded is awaited by a waiting upload. *)
Lemma session_consistent (be : Backend) (actions : list Action) :
  forall (s : Session) (us : list Upload),
    consistent s us -> all_fresh be actions s ->
    exists us', consistent (session be actions s) us'.
Proof.
  induction actions as [|a rest IH]; intros s us Hc Hfresh; cbn [session].
  - exists us. exact Hc.
  - destruct Hfresh as [Ha Hrest].
    destruct (act_consistent be a s us Hc Ha) as (us1 & Hc1 & _).
    apply (IH _ us1 Hc1 Hrest).
Qed.

(** In a session of fresh drops, whatever the interleaving of drops,
    settlements, deletions and workspace edits, an item that is settled is
    never changed again: later on it is in the batch as it was, or no row of
    the batch holds its file object any more. *)
Lemma settled_items_stay (be : Backend) (actions : list Action) :
  forall (s : Session) (us : list Upload) (item : FileUploadStatus),
    consistent s us -> all_fresh be actions s ->
    item ∈ batch_of s -> status item <> uploading ->
    item ∈ batch_of (session be actions s)
    \/ file_ref (file item) ∉ refs (batch_of (session be actions s)).
Proof.
  intros s us item Hc Hfresh Hin Hst.
  assert (Hgen : forall actions s us,
             consistent s us -> all_fresh be actions s ->
             item ∈ batch_of s
             \/ ((file_ref (file item) ∉ refs (batch_of s))
                 /\ file_ref (file item) ∈ dropped s) ->
             item ∈ batch_of (session be actions s)
             \/ file_ref (file item) ∉ refs (batch_of (session be actions s))).
  { clear s us actions Hc Hfresh Hin.
    induction actions as [|a rest IH]; intros s us Hc Hfresh Hitem; cbn [session].
    - destruct Hitem as [Hin | [Hout _]]; [left | right]; assumption.
    - destruct Hfresh as [Ha Hrest].
      destruct (act_consistent be a s us Hc Ha) as (us1 & Hc1 & Hkeep & Hnew & Hmono).
      apply (IH _ us1 Hc1 Hrest).
      destruct Hitem as [Hin | [Hout Hdr]].
      + destruct (Hkeep item Hin Hst) as [Hin' | Hout']; [left; exact Hin'|].
        right. split; [exact Hout'|]. apply Hmono.
        apply (c_batch_dropped s us Hc). apply elem_of_refs. exact Hin.
      + right. split; [|apply Hmono; exact Hdr].
        intros Hr. destruct (Hnew _ Hr) as [Hold | Hfr]; [exact (Hout Hold) | exact (Hfr Hdr)]. }
  apply (Hgen actions s us Hc Hfresh). left. exact Hin.
Qed.

(** In a session, a click on the row of an item being uploaded changes
    nothing. *)
Lemma click_on_uploading (be : Backend) (s : Session) (index : nat)
    (item : FileUploadStatus) :
  batch_of s !! index = Some item -> status item = uploading ->
  act be (ClickDelete index) s = (s, []).
Proof.
  unfold batch_of. intros Hi Hst. destruct s as [w ts dr]. cbn in *.
  unfold clickDelete, deleteButton. rewrite Hi, Hst. cbn. rewrite app_nil_r. reflexivity.
Qed.

(** A session with two batches overlapping and a deletion in between: the
    second drop comes while [b.pdf] is being uploaded, then the settled
    [a.pdf] is removed; at the end every upload has been settled. *)
Example sample_session :
  let s := session sample_backend
             [Drop [pdf 1 "a.pdf"; pdf 2 "b.pdf"]; Settle 0; Drop [pdf 3 "c.pdf"];
              ClickDelete 0; Settle 0; Settle 0]
             (start acme_world) in
  (fun item => (file_ref (file item), status item)) <$> batch_of s = [(2, error); (3, success)]
  /\ length (tasks s) = 0.
Proof. vm_compute. split; reflexivity. Qed.

(* ===================================================================== *)
(** ** Numbers in template literals *)
(* ===================================================================== *)

Lemma prints_as_interpolate (z : option Z) : prints_as z (interpolate z).
Proof. destruct z as [n|]; [intros _; reflexivity | reflexivity]. Qed.

(* ===================================================================== *)
(** ** The upload orchestrator *)
(* ===================================================================== *)

(** C1.  With a workspace bound, [onDrop] on a non-empty list of files first
    appends one item in status [uploading] per file, in input order, to the
    batch, with no request issued yet; it then issues one upload request per
    file, in input order, and at no moment of the run is more than one of
    them in flight.

    A workspace is bound when the workspace field passes the guard of
    [onDrop], that is, is not blank; every non-empty workspace identifier
    does ([workspace_id_not_blank]). *)
Theorem C1_pending_first_then_one_at_a_time
    (be : Backend) (w : World) (acceptedFiles : list File) :
  acceptedFiles <> [] ->
  trim (UploadState.namespace (upload w)) <> [] ->
  let ns := UploadState.namespace (upload w) in
  let tr := trace_of (run be (onDrop ns acceptedFiles) w) in
  (exists pre rest,
      tr = pre ++ rest
      /\ requests pre = []
      /\ files_after (UploadState.files (upload w)) pre =
           UploadState.files (upload w)
           ++ ((fun f => {| file := f; status := uploading;
                            message := None; chunksCreated := None |}) <$> acceptedFiles)
      /\ requests rest = requests tr)
  /\ requests tr =
       imap (fun i f => (next_promise w + i, PostUploadContract f ns)) acceptedFiles
  /\ (forall k, length (in_flight (take k tr)) <= 1)
  /\ in_flight tr = [].
Proof.
  intros Hfs Hns ns tr. subst tr.
  rewrite (run_onDrop be ns acceptedFiles w Hfs Hns). cbn [trace_of snd].
  set (batch := UploadState.files (upload w) ++ (newFile <$> acceptedFiles)).
  set (last := EvSetGlobalMessage (Some _)).
  repeat split.
  - exists [EvSetGlobalMessage None; EvSetFiles batch],
           (loop_trace be ns (next_promise w) acceptedFiles batch ++ [last]).
    split; [reflexivity|]. split; [reflexivity|]. split; reflexivity.
  - cbn [requests]. rewrite requests_app, requests_loop_trace. apply app_nil_r.
  - intros k. unfold in_flight.
    etransitivity; [apply in_flight_le_peak|].
    cbn [peak_from length]. apply (peak_loop_trace be ns acceptedFiles).
    simpl. lia.
  - unfold in_flight. cbn [in_flight_from]. rewrite in_flight_from_app.
    fold (in_flight (loop_trace be ns (next_promise w) acceptedFiles batch)).
    rewrite in_flight_loop_trace. reflexivity.
Qed.

Lemma C1_pending_first_then_one_at_a_time_witness :
  let w := acme_world in
  let acceptedFiles := [pdf 1 "a.pdf"; pdf 2 "b.pdf"; pdf 3 "c.pdf"] in
  let ns := UploadState.namespace (upload w) in
  let tr := trace_of (run sample_backend (onDrop ns acceptedFiles) w) in
  (exists pre rest,
      tr = pre ++ rest
      /\ requests pre = []
      /\ files_after (UploadState.files (upload w)) pre =
           UploadState.files (upload w)
           ++ ((fun f => {| file := f; status := uploading;
                            message := None; chunksCreated := None |}) <$> acceptedFiles)
      /\ requests rest = requests tr)
  /\ requests tr =
       imap (fun i f => (next_promise w + i, PostUploadContract f ns)) acceptedFiles
  /\ (forall k, length (in_flight (take k tr)) <= 1)
  /\ in_flight tr = [].
Proof.
  apply (C1_pending_first_then_one_at_a_time sample_backend acme_world
           [pdf 1 "a.pdf"; pdf 2 "b.pdf"; pdf 3 "c.pdf"]).
  - discriminate.
  - vm_compute. discriminate.
Defined.

(** C2.  In a submitted batch, whatever happened to the files before it, the
    [i]-th file [f] gets its request, and the update of the batch that
    follows its settlement turns the items of [f] (its own item is one of
    them) as follows and leaves every other item as it is:
    - a response whose result for the file has status ['success'] gives
      status [success] and a message made from the number of chunks created:
      the success text around what the template literal prints for that
      number, which for a safe integer is its decimal digits and for a
      missing count is [undefined];
    - a response whose result has status ['error'] gives status [error]
      and the server's message for the file;
    - a rejected request gives status [error] and the server's [detail] when
      there is one, the error's own message otherwise.
    Every file of the batch is requested, in order, whatever the outcomes. *)
Theorem C2_each_file_settles_independently
    (be : Backend) (w : World) (acceptedFiles : list File) (i : nat) (f : File) :
  trim (UploadState.namespace (upload w)) <> [] ->
  acceptedFiles !! i = Some f ->
  let ns := UploadState.namespace (upload w) in
  let prev := UploadState.files (upload w) in
  let id := next_promise w + i in
  let tr := trace_of (run be (onDrop ns acceptedFiles) w) in
  requests tr = imap (fun k g => (next_promise w + k, PostUploadContract g ns)) acceptedFiles
  /\ exists tr1 tr2 before after,
       tr = tr1 ++ [EvRequest id (PostUploadContract f ns); EvSettled id; EvSetFiles after]
                ++ tr2
       /\ length (requests tr1) = i
       /\ before = files_after prev tr1
       /\ (exists own, before !! (length prev + i) = Some own /\ file own = f)
       /\ length after = length before
       /\ forall j item, before !! j = Some item ->
            exists item',
              after !! j = Some item'
              /\ if same_file (file item) f then
                   file item' = file item
                   /\ match be _ id (UploadContractRequest f ns) with
                      | inr result =>
                          match UploadResponse.results result with
                          | Some (r :: _) =>
                              match UploadResult.status r with
                              | UploadResult.success =>
                                  status item' = success
                                  /\ (exists count,
                                        message item' =
                                          Some (lit "Processed successfully! "
                                                ++ count ++ lit " sections analyzed.")
                                        /\ prints_as (UploadResult.chunks_created r) count)
                                  /\ chunksCreated item' = UploadResult.chunks_created r
                              | UploadResult.error =>
                                  status item' = error
                                  /\ message item' = UploadResult.message r
                              end
                          | Some [] | None => status item' = success
                          end
                      | inl err =>
                          status item' = error
                          /\ message item' =
                               Some (match detail err with
                                     | Some (c :: d) => c :: d
                                     | Some [] | None => error_message err
                                     end)
                      end
                 else item' = item.
Proof.
  intros Hns Hi ns prev id tr.
  assert (Hfs : acceptedFiles <> []) by (intros ->; discriminate).
  split.
  { subst tr. rewrite (run_onDrop be ns acceptedFiles w Hfs Hns). cbn [trace_of snd requests].
    rewrite requests_app, requests_loop_trace. apply app_nil_r. }
  destruct (onDrop_step be ns acceptedFiles w i f Hns Hi) as (tr1 & tr2 & Htr & Hreq & Hbefore).
  fold prev id tr in Htr, Hbefore.
  exists tr1, tr2, (files_after prev tr1),
         (settle_item f (outcome be ns id f) <$> files_after prev tr1).
  split; [rewrite Htr, Hbefore; reflexivity|].
  split; [exact Hreq|]. split; [reflexivity|].
  split; [rewrite Hbefore; apply onDrop_own_item; exact Hi|].
  split; [apply length_fmap|].
  intros j item Hj. exists (settle_item f (outcome be ns id f) item).
  split; [rewrite list_lookup_fmap, Hj; reflexivity|].
  destruct (same_file (file item) f) eqn:Hsame.
  - split; [apply settle_item_file|].
    unfold outcome. destruct (be UploadResponse.t id (UploadContractRequest f ns))
      as [err|result]; cbn [settle_item].
    + unfold mark_error. rewrite Hsame. cbn [status message]. split; [reflexivity|].
      unfold opt_or, js_or. destruct (detail err) as [[|c d]|]; reflexivity.
    + unfold mark_result, fileResult_of. rewrite Hsame.
      destruct (UploadResponse.results result) as [[|r rs]|]; cbn; try reflexivity.
      destruct (UploadResult.status r); [|split; reflexivity].
      split; [reflexivity|]. split; [|reflexivity].
      exists (interpolate (UploadResult.chunks_created r)). split; [reflexivity|].
      apply prints_as_interpolate.
  - apply settle_item_other. exact Hsame.
Qed.

Lemma C2_each_file_settles_independently_witness :
  let w := acme_world in
  let acceptedFiles := [pdf 1 "a.pdf"; pdf 2 "b.pdf"; pdf 3 "c.pdf"] in
  let i := 1 in
  let f := pdf 2 "b.pdf" in
  let ns := UploadState.namespace (upload w) in
  let prev := UploadState.files (upload w) in
  let id := next_promise w + i in
  let tr := trace_of (run sample_backend (onDrop ns acceptedFiles) w) in
  requests tr = imap (fun k g => (next_promise w + k, PostUploadContract g ns)) acceptedFiles
  /\ exists tr1 tr2 before after,
       tr = tr1 ++ [EvRequest id (PostUploadContract f ns); EvSettled id; EvSetFiles after]
                ++ tr2
       /\ length (requests tr1) = i
       /\ before = files_after prev tr1
       /\ (exists own, before !! (length prev + i) = Some own /\ file own = f)
       /\ length after = length before
       /\ forall j item, before !! j = Some item ->
            exists item',
              after !! j = Some item'
              /\ if same_file (file item) f then
                   file item' = file item
                   /\ match sample_backend _ id (UploadContractRequest f ns) with
                      | inr result =>
                          match UploadResponse.results result with
                          | Some (r :: _) =>
                              match UploadResult.status r with
                              | UploadResult.success =>
                                  status item' = success
                                  /\ (exists count,
                                        message item' =
                                          Some (lit "Processed successfully! "
                                                ++ count ++ lit " sections analyzed.")
                                        /\ prints_as (UploadResult.chunks_created r) count)
                                  /\ chunksCreated item' = UploadResult.chunks_created r
                              | UploadResult.error =>
                                  status item' = error
                                  /\ message item' = UploadResult.message r
                              end
                          | Some [] | None => status item' = success
                          end
                      | inl err =>
                          status item' = error
                          /\ message item' =
                               Some (match detail err with
                                     | Some (c :: d) => c :: d
                                     | Some [] | None => error_message err
                                     end)
                      end
                 else item' = item.
Proof.
  apply (C2_each_file_settles_independently sample_backend acme_world
           [pdf 1 "a.pdf"; pdf 2 "b.pdf"; pdf 3 "c.pdf"] 1 (pdf 2 "b.pdf")).
  - vm_compute. discriminate.
  - reflexivity.
Defined.

(** The batch of three where the second request fails: items one and three
    end in [success], item two in [error] with the server's detail. *)
Example sample_batch_statuses :
  (fun item => (file_ref (file item), status item, message item))
    <$> UploadState.files
          (upload (world_of (run sample_backend
                               (onDrop (lit "acme")
                                       [pdf 1 "a.pdf"; pdf 2 "b.pdf"; pdf 3 "c.pdf"])
                               acme_world)))
  = [ (1, success, Some (lit "Processed successfully! 12 sections analyzed."));
      (2, error, Some (lit "Unsupported PDF"));
      (3, success, Some (lit "Processed successfully! 5 sections analyzed.")) ].
Proof. vm_compute. reflexivity. Qed.

(** C3.  When every file of the batch has been processed, [onDrop] shows one
    session message, the only one of the run, and the number [e] of failed
    uploads decides it: none failed, a success message with the number of
    files and the workspace; all failed, an error message with the number of
    failures; otherwise an error message with both numbers that points at
    the errors listed per item. *)
Theorem C3_one_summary_by_failure_count
    (be : Backend) (w : World) (acceptedFiles : list File) :
  acceptedFiles <> [] ->
  trim (UploadState.namespace (upload w)) <> [] ->
  let ns := UploadState.namespace (upload w) in
  let o := run be (onDrop ns acceptedFiles) w in
  let n := length acceptedFiles in
  let e := failures be ns (next_promise w) acceptedFiles in
  exists m processing,
    trace_of o = processing ++ [EvSetGlobalMessage (Some m)]
    /\ length (requests processing) = n
    /\ in_flight processing = []
    /\ session_messages (trace_of o) = [m]
    /\ UploadState.globalMessage (upload (world_of o)) = Some m
    /\ e <= n
    /\ (e = 0 ->
        m = {| type := sev_success;
               text := show n ++ lit " document" ++ (if 1 <? n then lit "s" else [])
                       ++ lit " uploaded successfully to workspace "
                       ++ dquote ++ ns ++ dquote ++ lit "!" |})
    /\ (e = n ->
        m = {| type := sev_error;
               text := lit "Failed to upload " ++ show e ++ lit " document"
                       ++ (if 1 <? e then lit "s" else [])
                       ++ lit ". Please try again." |})
    /\ (0 < e < n ->
        m = {| type := sev_error;
               text := show (n - e) ++ lit " uploaded, " ++ show e
                       ++ lit " failed. Please check the errors above." |}).
Proof.
  intros Hfs Hns ns o n e. subst o.
  rewrite (run_onDrop be ns acceptedFiles w Hfs Hns).
  fold n e. cbn [trace_of world_of fst snd].
  set (batch := UploadState.files (upload w) ++ (newFile <$> acceptedFiles)).
  assert (Hn : 0 < n).
  { subst n. destruct acceptedFiles; [congruence | simpl; lia]. }
  assert (He : e <= n) by apply failures_le.
  exists (summary ns (n - e) e),
         (EvSetGlobalMessage None :: EvSetFiles batch
            :: loop_trace be ns (next_promise w) acceptedFiles batch).
  split; [reflexivity|].
  split.
  { cbn [requests]. rewrite requests_loop_trace, length_imap. reflexivity. }
  split.
  { unfold in_flight. cbn [in_flight_from]. apply in_flight_loop_trace. }
  split.
  { cbn [session_messages]. rewrite session_messages_app, session_messages_loop_trace.
    reflexivity. }
  split; [reflexivity|].
  split; [exact He|].
  unfold summary, plural. repeat split.
  - intros ->. rewrite Nat.sub_0_r. reflexivity.
  - intros ->. destruct (Nat.eqb_spec n 0); [lia|].
    rewrite Nat.sub_diag. reflexivity.
  - intros [H1 H2]. destruct (Nat.eqb_spec e 0); [lia|].
    destruct (Nat.eqb_spec (n - e) 0); [lia|]. reflexivity.
Qed.

Lemma C3_one_summary_by_failure_count_witness :
  let w := acme_world in
  let acceptedFiles := [pdf 1 "a.pdf"; pdf 2 "b.pdf"; pdf 3 "c.pdf"] in
  let ns := UploadState.namespace (upload w) in
  let o := run sample_backend (onDrop ns acceptedFiles) w in
  let n := length acceptedFiles in
  let e := failures sample_backend ns (next_promise w) acceptedFiles in
  exists m processing,
    trace_of o = processing ++ [EvSetGlobalMessage (Some m)]
    /\ length (requests processing) = n
    /\ in_flight processing = []
    /\ session_messages (trace_of o) = [m]
    /\ UploadState.globalMessage (upload (world_of o)) = Some m
    /\ e <= n
    /\ (e = 0 ->
        m = {| type := sev_success;
               text := show n ++ lit " document" ++ (if 1 <? n then lit "s" else [])
                       ++ lit " uploaded successfully to workspace "
                       ++ dquote ++ ns ++ dquote ++ lit "!" |})
    /\ (e = n ->
        m = {| type := sev_error;
               text := lit "Failed to upload " ++ show e ++ lit " document"
                       ++ (if 1 <? e then lit "s" else [])
                       ++ lit ". Please try again." |})
    /\ (0 < e < n ->
        m = {| type := sev_error;
               text := show (n - e) ++ lit " uploaded, " ++ show e
                       ++ lit " failed. Please check the errors above." |}).
Proof.
  apply (C3_one_summary_by_failure_count sample_backend acme_world
           [pdf 1 "a.pdf"; pdf 2 "b.pdf"; pdf 3 "c.pdf"]).
  - discriminate.
  - vm_compute. discriminate.
Defined.

(** The sample batch takes the mixed path: two uploaded, one failed. *)
Example sample_batch_summary :
  UploadState.globalMessage
    (upload (world_of (run sample_backend
                         (onDrop (lit "acme") [pdf 1 "a.pdf"; pdf 2 "b.pdf"; pdf 3 "c.pdf"])
                         acme_world)))
  = Some {| type := sev_error;
            text := lit "2 uploaded, 1 failed. Please check the errors above." |}.
Proof. vm_compute. reflexivity. Qed.

(* ===================================================================== *)
(** ** The workspace binding *)
(* ===================================================================== *)

(** C4.  Setting the workspace from any raw input [x] persists, under the key
    [contractNamespace], exactly the characters of [x] that belong to
    [[A-Za-z0-9_-]], in their original order (also when none is left), and a
    [getNamespace] that follows returns that very string. *)
Theorem C4_set_persists_sanitized (be : Backend) (w : World) (x : jsstring) :
  let w' := world_of (run be (handleNamespaceChange x) w) in
  localStorage w' !! contractNamespace = Some (workspace_chars x)
  /\ result_of (run be getNamespace w') = Some (workspace_chars x)
  /\ Forall (fun c => is_workspace_char c = true) (workspace_chars x)
  /\ sublist (workspace_chars x) x
  /\ Forall (fun c => is_workspace_char c = true -> c ∈ workspace_chars x) x.
Proof.
  cbn zeta. unfold handleNamespaceChange, setNamespace, getNamespace.
  rewrite sanitize_filter.
  cbn [bind perform run step world_of result_of fst snd localStorage set_upload
       set_localStorage].
  rewrite lookup_insert_eq.
  repeat split.
  - unfold workspace_chars. apply Forall_forall. intros c Hc.
    apply list_elem_of_In, filter_In in Hc. tauto.
  - apply sublist_filter.
  - apply Forall_forall. intros c Hc Hclass.
    apply list_elem_of_In, filter_In. split; [apply list_elem_of_In; exact Hc | exact Hclass].
Qed.

Lemma C4_set_persists_sanitized_witness :
  let x := lit "acme corp/2024!" in
  let w' := world_of (run sample_backend (handleNamespaceChange x) (fresh_world ∅)) in
  localStorage w' !! contractNamespace = Some (workspace_chars x)
  /\ result_of (run sample_backend getNamespace w') = Some (workspace_chars x)
  /\ Forall (fun c => is_workspace_char c = true) (workspace_chars x)
  /\ sublist (workspace_chars x) x
  /\ Forall (fun c => is_workspace_char c = true -> c ∈ workspace_chars x) x.
Proof.
  apply (C4_set_persists_sanitized sample_backend (fresh_world ∅) (lit "acme corp/2024!")).
Defined.

(** What is persisted for an input with a space, a slash and a bang. *)
Example sample_sanitized :
  workspace_chars (lit "acme corp/2024!") = lit "acmecorp2024".
Proof. vm_compute. reflexivity. Qed.

(** An input with no character of the class persists the empty string, which
    [getNamespace] returns as such. *)
Example sample_sanitized_empty :
  result_of (run sample_backend getNamespace
               (world_of (run sample_backend (handleNamespaceChange (lit "!! ??"))
                            acme_world)))
  = Some [].
Proof. vm_compute. reflexivity. Qed.

(** C5.  With files to upload but no workspace bound (the workspace field is
    empty or blank), [onDrop] issues no request, shows the missing-workspace
    error message and leaves the batch as it was. *)
Theorem C5_no_workspace_no_upload (be : Backend) (w : World) (acceptedFiles : list File) :
  acceptedFiles <> [] ->
  trim (UploadState.namespace (upload w)) = [] ->
  let o := run be (onDrop (UploadState.namespace (upload w)) acceptedFiles) w in
  requests (trace_of o) = []
  /\ session_messages (trace_of o) =
       [ {| type := sev_error;
            text := lit "Please enter a workspace name before uploading documents." |} ]
  /\ UploadState.globalMessage (upload (world_of o)) =
       Some {| type := sev_error;
               text := lit "Please enter a workspace name before uploading documents." |}
  /\ files_history (trace_of o) = []
  /\ UploadState.files (upload (world_of o)) = UploadState.files (upload w).
Proof.
  intros Hfs Hns o. subst o. rewrite (run_onDrop_unbound be _ _ w Hfs Hns).
  repeat split.
Qed.

Lemma C5_no_workspace_no_upload_witness :
  let w := fresh_world ∅ in
  let o := run sample_backend (onDrop (UploadState.namespace (upload w)) [pdf 1 "a.pdf"]) w in
  requests (trace_of o) = []
  /\ session_messages (trace_of o) =
       [ {| type := sev_error;
            text := lit "Please enter a workspace name before uploading documents." |} ]
  /\ UploadState.globalMessage (upload (world_of o)) =
       Some {| type := sev_error;
               text := lit "Please enter a workspace name before uploading documents." |}
  /\ files_history (trace_of o) = []
  /\ UploadState.files (upload (world_of o)) = UploadState.files (upload w).
Proof.
  apply (C5_no_workspace_no_upload sample_backend (fresh_world ∅) [pdf 1 "a.pdf"]).
  - discriminate.
  - reflexivity.
Defined.

(* ===================================================================== *)
(** ** The life of an item *)
(* ===================================================================== *)

(** C6.  A click on the delete control of a row whose item is settled
    ([success] or [error]) removes that item from the batch: the rows holding
    its file object go, every other row stays, unchanged and in order, and
    where the file objects of the batch are pairwise distinct exactly that
    one position is deleted.  A row whose item is [uploading] has no delete
    control: the click changes nothing.  No request is issued either way. *)
Theorem C6_remove_settled_items_only
    (be : Backend) (w : World) (index : nat) (item : FileUploadStatus) :
  let batch := UploadState.files (upload w) in
  batch !! index = Some item ->
  let o := run be (clickDelete batch index) w in
  let after := UploadState.files (upload (world_of o)) in
  requests (trace_of o) = []
  /\ (status item = uploading -> world_of o = w /\ trace_of o = [])
  /\ (status item = success \/ status item = error ->
      (item ∉ after)
      /\ (forall x, x ∈ after <-> x ∈ batch /\ file_ref (file x) <> file_ref (file item))
      /\ sublist after batch
      /\ (NoDup (refs batch) -> after = delete index batch)
      /\ world_of o = set_upload (set_files after) w).
Proof.
  intros batch Hi o after. subst o after. unfold clickDelete. rewrite Hi.
  unfold deleteButton, removeFile.
  assert (Hmem : forall x,
             x ∈ List.filter (fun y => negb (same_file (file y) (file item))) batch
             <-> x ∈ batch /\ file_ref (file x) <> file_ref (file item)).
  { intros x. rewrite !list_elem_of_In, filter_In. unfold same_file.
    destruct (Nat.eqb_spec (file_ref (file x)) (file_ref (file item))); cbn [negb];
      intuition congruence. }
  destruct (status item) eqn:Hst.
  - split; [reflexivity|]. split; [intros _; split; reflexivity|].
    intros [H|H]; discriminate.
  - cbn [perform run step world_of trace_of fst snd requests app upload set_upload
         set_files UploadState.files]. fold batch.
    split; [reflexivity|]. split; [intros H; discriminate|]. intros _.
    split; [|split; [exact Hmem | split; [apply sublist_filter | split]]].
    + intros Hin. apply Hmem in Hin. tauto.
    + intros Hnd. apply filter_is_delete; assumption.
    + reflexivity.
  - cbn [perform run step world_of trace_of fst snd requests app upload set_upload
         set_files UploadState.files]. fold batch.
    split; [reflexivity|]. split; [intros H; discriminate|]. intros _.
    split; [|split; [exact Hmem | split; [apply sublist_filter | split]]].
    + intros Hin. apply Hmem in Hin. tauto.
    + intros Hnd. apply filter_is_delete; assumption.
    + reflexivity.
Qed.

Lemma C6_remove_settled_items_only_witness :
  let w := sample_done_world in
  let index := 1 in
  let item := {| file := pdf 2 "b.pdf"; status := error;
                 message := Some (lit "Unsupported PDF"); chunksCreated := None |} in
  let batch := UploadState.files (upload w) in
  let o := run sample_backend (clickDelete batch index) w in
  let after := UploadState.files (upload (world_of o)) in
  requests (trace_of o) = []
  /\ (status item = uploading -> world_of o = w /\ trace_of o = [])
  /\ (status item = success \/ status item = error ->
      (item ∉ after)
      /\ (forall x, x ∈ after <-> x ∈ batch /\ file_ref (file x) <> file_ref (file item))
      /\ sublist after batch
      /\ (NoDup (refs batch) -> after = delete index batch)
      /\ world_of o = set_upload (set_files after) w).
Proof.
  apply (C6_remove_settled_items_only sample_backend sample_done_world 1
           {| file := pdf 2 "b.pdf"; status := error;
              message := Some (lit "Unsupported PDF"); chunksCreated := None |}).
  vm_compute. reflexivity.
Defined.

(** Deleting the failed item of the sample batch leaves the two others. *)
Example sample_delete_failed :
  (fun item => (file_ref (file item), status item))
    <$> UploadState.files
          (upload (world_of (run sample_backend
                               (clickDelete (UploadState.files (upload sample_done_world)) 1)
                               sample_done_world)))
  = [(1, success); (3, success)].
Proof. vm_compute. reflexivity. Qed.

(** While the first upload of the sample batch is in flight, its row has no
    delete control. *)
Example sample_delete_pending :
  let batch := newFile <$> [pdf 1 "a.pdf"; pdf 2 "b.pdf"; pdf 3 "c.pdf"] in
  clickDelete batch 0 = Ret tt.
Proof. reflexivity. Qed.

(** C7.  Items are identified by their file object, and the browser hands
    every drop file objects of its own.

    One run of [onDrop], on a batch and accepted files whose file objects
    are pairwise distinct:
    - each new item is created in status [uploading], before any request
      resolves;
    - the [files] state takes one further value per file, the one for the
      [i]-th file being written when the handler resumes on the settlement
      of that file's own request;
    - the item of the [i]-th file is the [uploading] item it was created as
      in every value up to that one, and from it on is one and the same
      settled item, of status [success] or [error]: it changes exactly once;
    - the items that were in the batch before, settled ones among them, are
      the same in every value.

    Any session of fresh drops, however drops, settlements, deletions and
    workspace edits interleave: an item that is settled is never changed
    again; at every later moment it is in the batch as it was, or no row of
    the batch holds its file object any more. *)
Theorem C7_items_settle_exactly_once (be : Backend) :
   (forall (w : World) (acceptedFiles : list File),
      acceptedFiles <> [] ->
      trim (UploadState.namespace (upload w)) <> [] ->
      NoDup (refs (UploadState.files (upload w)) ++ (file_ref <$> acceptedFiles)) ->
      let ns := UploadState.namespace (upload w) in
      let prev := UploadState.files (upload w) in
      let n := next_promise w in
      let tr := trace_of (run be (onDrop ns acceptedFiles) w) in
      let history := files_history tr in
      let created f := {| file := f; status := uploading;
                          message := None; chunksCreated := None |} in
      length history = S (length acceptedFiles)
      /\ history !! 0 = Some (None, prev ++ (created <$> acceptedFiles))
      /\ (forall i f, acceptedFiles !! i = Some f ->
            requests tr !! i = Some (n + i, PostUploadContract f ns)
            /\ exists b, history !! S i = Some (Some (n + i), b))
      /\ (forall i f, acceptedFiles !! i = Some f ->
            exists settled,
              file settled = f
              /\ status settled = (if failed (be _ (n + i) (UploadContractRequest f ns))
                                   then error else success)
              /\ forall k r b, history !! k = Some (r, b) ->
                   b !! (length prev + i) = Some (if k <=? i then created f else settled))
      /\ (forall j item, prev !! j = Some item ->
            forall k r b, history !! k = Some (r, b) -> b !! j = Some item))
   /\
   (forall (actions : list Action) (s : Session) (us : list Upload)
           (item : FileUploadStatus),
      consistent s us ->
      all_fresh be actions s ->
      item ∈ batch_of s ->
      status item <> uploading ->
      item ∈ batch_of (session be actions s)
      \/ file_ref (file item) ∉ refs (batch_of (session be actions s))).
Proof.
  split.
  { intros w acceptedFiles Hfs Hns Hnd ns prev n tr history created.
    pose proof (files_history_onDrop be ns acceptedFiles w Hfs Hns) as Hhist.
    fold prev n tr history in Hhist. cbn zeta in Hhist.
    apply NoDup_app in Hnd as (Hprev & Hdisj & Hnew). fold prev in Hprev, Hdisj.
    split; [rewrite Hhist; cbn [length]; rewrite length_imap; reflexivity|].
    split; [rewrite Hhist; reflexivity|].
    split; [|split].
    - intros i f Hi. split.
      + subst tr. rewrite (run_onDrop be ns acceptedFiles w Hfs Hns).
        cbn [trace_of snd requests]. rewrite requests_app, requests_loop_trace, app_nil_r.
        rewrite list_lookup_imap, Hi. reflexivity.
      + rewrite Hhist. cbn [lookup list_lookup].
        change (exists b,
                   imap (fun k _ => (Some (n + k),
                                     loop_batch be ns n (take (S k) acceptedFiles)
                                       (prev ++ (newFile <$> acceptedFiles))))
                        acceptedFiles !! i = Some (Some (n + i), b)).
        rewrite list_lookup_imap, Hi. eexists. reflexivity.
    - intros i f Hi.
      exists (settle_item f (outcome be ns (n + i) f) (newFile f)).
      split; [apply settle_item_file|].
      split.
      { apply settle_item_status. cbn [newFile file]. unfold same_file. apply Nat.eqb_refl. }
      intros k r b Hk.
      apply (files_history_onDrop_lookup be ns acceptedFiles w k r b Hfs Hns)
        in Hk as (Hle & -> & _). fold prev n.
      rewrite loop_batch_lookup, lookup_app_r by lia.
      replace (length prev + i - length prev) with i by lia.
      rewrite list_lookup_fmap, Hi. cbn [fmap option_fmap option_map]. f_equal.
      destruct (Nat.leb_spec k i) as [Hki|Hki].
      + (* not yet uploaded: none of the first [k] files is [f] *)
        apply loop_item_other. cbn [newFile file].
        rewrite <- (take_drop k acceptedFiles), fmap_app in Hnew.
        apply NoDup_app in Hnew as (_ & Hsep & _).
        intros Hin. apply (Hsep _ Hin).
        apply list_elem_of_fmap. exists f. split; [reflexivity|].
        apply list_elem_of_lookup. exists (i - k).
        rewrite lookup_drop. replace (k + (i - k)) with i by lia. exact Hi.
      + (* uploaded: settled by its own request, and by no other *)
        apply (loop_item_own be ns (take k acceptedFiles) n i f).
        * rewrite <- (take_drop k acceptedFiles), fmap_app in Hnew.
          apply NoDup_app in Hnew as (Htake & _ & _). exact Htake.
        * rewrite lookup_take_lt by lia. exact Hi.
        * reflexivity.
    - intros j item Hj k r b Hk.
      apply (files_history_onDrop_lookup be ns acceptedFiles w k r b Hfs Hns)
        in Hk as (Hle & -> & _). fold prev n.
      rewrite loop_batch_lookup, lookup_app_l by (apply lookup_lt_Some in Hj; exact Hj).
      rewrite Hj. cbn [fmap option_fmap option_map]. f_equal.
      apply loop_item_other. intros Hin.
      apply (Hdisj (file_ref (file item))).
      + unfold refs. apply list_elem_of_fmap. exists item. split; [reflexivity|].
        apply list_elem_of_lookup. exists j. exact Hj.
      + apply list_elem_of_fmap in Hin as (g & Hg & Hgin).
        apply list_elem_of_fmap. exists g. split; [exact Hg|].
        apply list_elem_of_lookup in Hgin as (p & Hp).
        apply lookup_take_Some in Hp as [Hp _].
        apply list_elem_of_lookup. exists p. exact Hp. }
  intros actions s us item Hc Hfresh Hin Hst.
  exact (settled_items_stay be actions s us item Hc Hfresh Hin Hst).
Qed.

(** The sample batch once processed, as a session at rest. *)
Lemma sample_done_consistent :
  consistent {| world := sample_done_world; tasks := []; dropped := [1; 2; 3] |} [].
Proof.
  constructor; cbn [world tasks dropped fmap list_fmap concat].
  - reflexivity.
  - apply (bool_decide_unpack _). vm_compute. reflexivity.
  - apply NoDup_nil_2.
  - intros r Hr. vm_compute in Hr. exact Hr.
  - intros r Hr. apply elem_of_nil in Hr. contradiction.
  - intros item _ _ Hr. apply elem_of_nil in Hr. contradiction.
  - intros item Hin Hst. vm_compute in Hin.
    repeat (apply elem_of_cons in Hin as [-> | Hin]; [discriminate|]).
    apply elem_of_nil in Hin. contradiction.
Qed.

Lemma C7_items_settle_exactly_once_witness :
  (let w := acme_world in
   let acceptedFiles := [pdf 1 "a.pdf"; pdf 2 "b.pdf"; pdf 3 "c.pdf"] in
   let ns := UploadState.namespace (upload w) in
   let prev := UploadState.files (upload w) in
   let n := next_promise w in
   let tr := trace_of (run sample_backend (onDrop ns acceptedFiles) w) in
   let history := files_history tr in
   let created f := {| file := f; status := uploading;
                       message := None; chunksCreated := None |} in
   length history = S (length acceptedFiles)
   /\ history !! 0 = Some (None, prev ++ (created <$> acceptedFiles))
   /\ (forall i f, acceptedFiles !! i = Some f ->
         requests tr !! i = Some (n + i, PostUploadContract f ns)
         /\ exists b, history !! S i = Some (Some (n + i), b))
   /\ (forall i f, acceptedFiles !! i = Some f ->
         exists settled,
           file settled = f
           /\ status settled = (if failed (sample_backend _ (n + i) (UploadContractRequest f ns))
                                then error else success)
           /\ forall k r b, history !! k = Some (r, b) ->
                b !! (length prev + i) = Some (if k <=? i then created f else settled))
   /\ (forall j item, prev !! j = Some item ->
         forall k r b, history !! k = Some (r, b) -> b !! j = Some item))
  /\
  (let s := {| world := sample_done_world; tasks := []; dropped := [1; 2; 3] |} in
   let actions := [Drop [pdf 4 "d.pdf"]; ClickDelete 1; Settle 0] in
   let item := {| file := pdf 1 "a.pdf"; status := success;
                  message := Some (lit "Processed successfully! 12 sections analyzed.");
                  chunksCreated := Some 12%Z |} in
   item ∈ batch_of (session sample_backend actions s)
   \/ file_ref (file item) ∉ refs (batch_of (session sample_backend actions s))).
Proof.
  destruct (C7_items_settle_exactly_once sample_backend) as [Hrun Hsession].
  split.
  - apply (Hrun acme_world [pdf 1 "a.pdf"; pdf 2 "b.pdf"; pdf 3 "c.pdf"]).
    + discriminate.
    + vm_compute. discriminate.
    + apply (bool_decide_unpack _). vm_compute. reflexivity.
  - apply (Hsession [Drop [pdf 4 "d.pdf"]; ClickDelete 1; Settle 0]
             {| world := sample_done_world; tasks := []; dropped := [1; 2; 3] |} []).
    + exact sample_done_consistent.
    + cbn [all_fresh fresh]. split; [|split; [exact I | split; [exact I | exact I]]].
      split.
      * apply (bool_decide_unpack _). vm_compute. reflexivity.
      * intros r Hr. apply (bool_decide_unpack _).
        vm_compute in Hr. apply list_elem_of_singleton in Hr. subst r.
        vm_compute. reflexivity.
    + vm_compute. apply elem_of_cons. left. reflexivity.
    + discriminate.
Defined.

(* ===================================================================== *)
(** ** The query client *)
(* ===================================================================== *)

(** C8.  [handleSubmit] with a question that is blank after trimming does
    nothing at all: no request, no state change.  With no workspace bound
    (nothing stored, or the empty string) it issues no request either, and a
    non-blank question then gets the missing-workspace error shown. *)
Theorem C8_no_request_when_blank_or_unbound (be : Backend) (w : World) (query : jsstring) :
  (trim query = [] -> run be (handleSubmit query) w = (tt, w, []))
  /\ (localStorage w !! contractNamespace = None
      \/ localStorage w !! contractNamespace = Some [] ->
      requests (trace_of (run be (handleSubmit query) w)) = []
      /\ (trim query <> [] ->
          run be (handleSubmit query) w =
            (tt,
             set_querier
               (set_error (lit "Please upload documents first to set a workspace name.")) w,
             [EvSetError (lit "Please upload documents first to set a workspace name.")]))).
Proof.
  unfold handleSubmit, getNamespace. split.
  - intros ->. reflexivity.
  - intros Hns. destruct (trim query) as [|c s] eqn:Hq; cbn [is_empty].
    + split; [reflexivity | congruence].
    + cbn [bind perform run step].
      destruct Hns as [-> | ->]; split; reflexivity.
Qed.

Lemma C8_no_request_when_blank_or_unbound_witness :
  run sample_backend (handleSubmit (lit "   ")) acme_world = (tt, acme_world, [])
  /\ requests (trace_of (run sample_backend (handleSubmit (lit "what is the term?"))
                           (fresh_world ∅))) = []
  /\ QueryState.error
       (querier (world_of (run sample_backend (handleSubmit (lit "what is the term?"))
                             (fresh_world ∅))))
     = lit "Please upload documents first to set a workspace name.".
Proof.
  split; [|split].
  - apply (C8_no_request_when_blank_or_unbound sample_backend acme_world (lit "   ")).
    reflexivity.
  - apply (C8_no_request_when_blank_or_unbound sample_backend (fresh_world ∅)
             (lit "what is the term?")).
    left. reflexivity.
  - destruct (C8_no_request_when_blank_or_unbound sample_backend (fresh_world ∅)
                (lit "what is the term?")) as [_ H].
    destruct (H (or_introl eq_refl)) as [_ H'].
    rewrite H'; [reflexivity | vm_compute; discriminate].
Defined.

(** C9.  With a non-blank question and a workspace bound, [handleSubmit]
    issues exactly one request: a query carrying the question, [top_k = 10]
    and the bound workspace as namespace.  When it succeeds, the answer and
    the sources of the component become those of the response, the sources
    in the order and number received, whatever was displayed before. *)
Theorem C9_one_query_replaces_result
    (be : Backend) (w : World) (query ns : jsstring) :
  trim query <> [] ->
  localStorage w !! contractNamespace = Some ns ->
  ns <> [] ->
  let o := run be (handleSubmit query) w in
  requests (trace_of o) = [(next_promise w, PostQuery query 10 ns)]
  /\ in_flight (trace_of o) = []
  /\ forall result,
       be _ (next_promise w) (QueryRequest query 10 ns) = inr result ->
       QueryState.answer (querier (world_of o)) = QueryResponse.answer result
       /\ QueryState.sources (querier (world_of o)) = QueryResponse.sources result
       /\ QueryState.error (querier (world_of o)) = []
       /\ QueryState.loading (querier (world_of o)) = false.
Proof.
  intros Hq Hns Hne o. subst o. unfold handleSubmit, getNamespace.
  destruct (trim query) as [|c s] eqn:Hquery; [congruence|].
  cbn [is_empty bind perform run step]. rewrite Hns.
  destruct ns as [|c0 s0]; [congruence|].
  unfold submit, queryContracts, topK.
  cbn [bind perform run step promise_id promise_request wire next_promise
       set_querier].
  destruct (be QueryResponse.t (next_promise w)
              (QueryRequest query 10 (c0 :: s0))) as [err|result] eqn:Hbe.
  - split; [reflexivity|]. split.
    + unfold in_flight. cbn. rewrite Nat.eqb_refl. reflexivity.
    + intros result Hr. discriminate.
  - split; [reflexivity|]. split.
    + unfold in_flight. cbn. rewrite Nat.eqb_refl. reflexivity.
    + intros result' Hr. injection Hr as <-. repeat split.
Qed.

Lemma C9_one_query_replaces_result_witness :
  let w := acme_world in
  let query := lit "what is the term?" in
  let o := run sample_backend (handleSubmit query) w in
  requests (trace_of o) = [(next_promise w, PostQuery query 10 (lit "acme"))]
  /\ in_flight (trace_of o) = []
  /\ forall result,
       sample_backend _ (next_promise w) (QueryRequest query 10 (lit "acme")) = inr result ->
       QueryState.answer (querier (world_of o)) = QueryResponse.answer result
       /\ QueryState.sources (querier (world_of o)) = QueryResponse.sources result
       /\ QueryState.error (querier (world_of o)) = []
       /\ QueryState.loading (querier (world_of o)) = false.
Proof.
  apply (C9_one_query_replaces_result sample_backend acme_world
           (lit "what is the term?") (lit "acme")).
  - vm_compute. discriminate.
  - vm_compute. reflexivity.
  - discriminate.
Defined.

(** The sample query shows two sources, ranked as received. *)
Example sample_query_sources :
  source_num <$> QueryState.sources
    (querier (world_of (run sample_backend (handleSubmit (lit "what is the term?"))
                          acme_world)))
  = [1%Z; 2%Z].
Proof. vm_compute. reflexivity. Qed.

(* ===================================================================== *)
(** ** Responses without results *)
(* ===================================================================== *)

(** C10.  When the upload of a file resolves with a response that has no
    [results] array, or an empty one, the items of that file go to status
    [success]: the chunk count is the response's [total_chunks], the message
    the usual success message around what the template literal prints for
    that count (its decimal digits when it is a safe integer), and the
    upload is not counted as a failure. *)
Theorem C10_missing_results_is_success
    (be : Backend) (w : World) (acceptedFiles : list File) (i : nat) (f : File)
    (result : UploadResponse.t) :
  trim (UploadState.namespace (upload w)) <> [] ->
  acceptedFiles !! i = Some f ->
  let ns := UploadState.namespace (upload w) in
  let prev := UploadState.files (upload w) in
  let id := next_promise w + i in
  let tr := trace_of (run be (onDrop ns acceptedFiles) w) in
  be _ id (UploadContractRequest f ns) = inr result ->
  UploadResponse.results result = None \/ UploadResponse.results result = Some [] ->
  failed (inr result) = false
  /\ exists tr1 tr2 before after,
       tr = tr1 ++ [EvRequest id (PostUploadContract f ns); EvSettled id; EvSetFiles after]
                ++ tr2
       /\ length (requests tr1) = i
       /\ before = files_after prev tr1
       /\ (exists own, before !! (length prev + i) = Some own /\ file own = f)
       /\ exists count,
            prints_as (Some (UploadResponse.total_chunks result)) count
            /\ forall j item, before !! j = Some item -> same_file (file item) f = true ->
                 after !! j =
                   Some {| file := file item;
                           status := success;
                           message := Some (lit "Processed successfully! "
                                            ++ count ++ lit " sections analyzed.");
                           chunksCreated := Some (UploadResponse.total_chunks result) |}.
Proof.
  intros Hns Hi ns prev id tr Hbe Hres.
  split.
  { unfold failed. destruct Hres as [-> | ->]; reflexivity. }
  destruct (onDrop_step be ns acceptedFiles w i f Hns Hi) as (tr1 & tr2 & Htr & Hreq & Hbefore).
  fold prev id tr in Htr, Hbefore.
  exists tr1, tr2, (files_after prev tr1),
         (settle_item f (outcome be ns id f) <$> files_after prev tr1).
  split; [rewrite Htr, Hbefore; reflexivity|].
  split; [exact Hreq|]. split; [reflexivity|].
  split; [rewrite Hbefore; apply onDrop_own_item; exact Hi|].
  exists (toString (UploadResponse.total_chunks result)).
  split; [intros _; reflexivity|].
  intros j item Hj Hsame. rewrite list_lookup_fmap, Hj. cbn [fmap option_fmap option_map].
  f_equal. unfold outcome. rewrite Hbe. cbn [settle_item].
  unfold mark_result, fileResult_of. rewrite Hsame.
  destruct Hres as [-> | ->]; reflexivity.
Qed.

Lemma C10_missing_results_is_success_witness :
  let w := acme_world in
  let acceptedFiles := [pdf 1 "a.pdf"; pdf 2 "b.pdf"; pdf 3 "c.pdf"] in
  let i := 2 in
  let f := pdf 3 "c.pdf" in
  let result := {| UploadResponse.message := lit "done";
                   UploadResponse.total_chunks := 5;
                   UploadResponse.results := None |} in
  let ns := UploadState.namespace (upload w) in
  let prev := UploadState.files (upload w) in
  let id := next_promise w + i in
  let tr := trace_of (run sample_backend (onDrop ns acceptedFiles) w) in
  failed (inr result) = false
  /\ exists tr1 tr2 before after,
       tr = tr1 ++ [EvRequest id (PostUploadContract f ns); EvSettled id; EvSetFiles after]
                ++ tr2
       /\ length (requests tr1) = i
       /\ before = files_after prev tr1
       /\ (exists own, before !! (length prev + i) = Some own /\ file own = f)
       /\ exists count,
            prints_as (Some (UploadResponse.total_chunks result)) count
            /\ forall j item, before !! j = Some item -> same_file (file item) f = true ->
                 after !! j =
                   Some {| file := file item;
                           status := success;
                           message := Some (lit "Processed successfully! "
                                            ++ count ++ lit " sections analyzed.");
                           chunksCreated := Some (UploadResponse.total_chunks result) |}.
Proof.
  apply (C10_missing_results_is_success sample_backend acme_world
           [pdf 1 "a.pdf"; pdf 2 "b.pdf"; pdf 3 "c.pdf"] 2 (pdf 3 "c.pdf")).
  - vm_compute. discriminate.
  - reflexivity.
  - reflexivity.
  - left. reflexivity.
Defined.

(* ===================================================================== *)
(** ** Further facts about the handlers *)
(* ===================================================================== *)

(** The run of [submit], whatever the backend answers. *)
Lemma run_submit (be : Backend) (w : World) (query ns : jsstring) :
  let n := next_promise w in
  let o := be _ n (QueryRequest query topK ns) in
  let before := [EvSetLoading true; EvSetAnswer []; EvSetSources []; EvSetError [];
                 EvRequest n (PostQuery query topK ns); EvSettled n] in
  run be (submit query ns) w =
    (tt,
     {| upload := upload w;
        querier :=
          {| QueryState.query := QueryState.query (querier w);
             QueryState.answer :=
               match o with inr result => QueryResponse.answer result | inl _ => [] end;
             QueryState.sources :=
               match o with inr result => QueryResponse.sources result | inl _ => [] end;
             QueryState.loading := false;
             QueryState.error :=
               match o with inr _ => [] | inl err => query_error_text err end |};
        localStorage := localStorage w;
        next_promise := S n |},
     before
     ++ match o with
        | inr result => [EvSetAnswer (QueryResponse.answer result);
                         EvSetSources (QueryResponse.sources result)]
        | inl err => [EvSetError (query_error_text err)]
        end
     ++ [EvSetLoading false]).
Proof.
  destruct w as [u [q a s l e] ls n]. cbn zeta. unfold submit, queryContracts.
  cbn [bind perform run step promise_id promise_request wire next_promise
       set_querier set_next_promise].
  destruct (be QueryResponse.t n (QueryRequest query topK ns)) as [err|result];
    reflexivity.
Qed.

Lemma run_handleSubmit (be : Backend) (w : World) (query ns : jsstring) :
  trim query <> [] ->
  localStorage w !! contractNamespace = Some ns ->
  ns <> [] ->
  run be (handleSubmit query) w = run be (submit query ns) w.
Proof.
  intros Hq Hns Hne. unfold handleSubmit, getNamespace.
  destruct (trim query) as [|c s]; [congruence|].
  cbn [is_empty bind perform run step]. rewrite Hns.
  destruct ns as [|c0 s0]; [congruence|].
  destruct (run be (submit query (c0 :: s0)) w) as [[[] w'] tr]. reflexivity.
Qed.

Lemma requests_submit (be : Backend) (w : World) (query ns : jsstring) :
  requests (trace_of (run be (submit query ns) w))
  = [(next_promise w, PostQuery query 10 ns)].
Proof.
  rewrite run_submit. cbn [trace_of snd requests app]. unfold topK.
  destruct (be QueryResponse.t (next_promise w) (QueryRequest query 10 ns)); reflexivity.
Qed.

Lemma query_error_text_nonempty (err : AxiosError) : query_error_text err <> [].
Proof.
  unfold query_error_text, opt_or, js_or.
  destruct (detail err) as [[|c d]|]; cbn; try discriminate;
    destruct (error_message err); cbn; discriminate.
Qed.

Lemma files_loop_batch (be : Backend) (ns : jsstring) (fs : list File) (id : nat)
    (batch : list FileUploadStatus) :
  file <$> loop_batch be ns id fs batch = file <$> batch.
Proof.
  apply list_eq. intros j. rewrite !list_lookup_fmap, loop_batch_lookup.
  destruct (batch !! j) as [item|]; [|reflexivity].
  cbn [fmap option_fmap option_map]. rewrite loop_item_file. reflexivity.
Qed.

Lemma settled_rows_lookup (be : Backend) (ns : jsstring) (fs : list File) :
  forall (id j : nat),
    settled_rows be ns id fs !! j
    = (fun f => settle_item f (outcome be ns (id + j) f) (newFile f)) <$> fs !! j.
Proof.
  induction fs as [|f rest IH]; intros id j; [reflexivity|].
  destruct j as [|j]; cbn [settled_rows lookup list_lookup].
  - rewrite Nat.add_0_r. reflexivity.
  - change (settled_rows be ns (S id) rest !! j
            = (fun g => settle_item g (outcome be ns (id + S j) g) (newFile g)) <$> rest !! j).
    rewrite IH. replace (S id + j) with (id + S j) by lia. reflexivity.
Qed.

Lemma settled_rows_length (be : Backend) (ns : jsstring) (fs : list File) :
  forall id, length (settled_rows be ns id fs) = length fs.
Proof.
  induction fs as [|f rest IH]; intros id; cbn [settled_rows length];
    [reflexivity | rewrite IH; reflexivity].
Qed.

Lemma has_status_settled (st : Status) (f : File) (o : Outcome) :
  has_status st (settle_item f o (newFile f))
  = match st with
    | uploading => false
    | success => negb (failed o)
    | error => failed o
    end.
Proof.
  unfold has_status.
  rewrite settle_item_status by (cbn [newFile file]; unfold same_file; apply Nat.eqb_refl).
  destruct (failed o), st; reflexivity.
Qed.

Lemma settled_rows_status (be : Backend) (ns : jsstring) (fs : list File) :
  forall (id : nat),
    length (rows_in error (settled_rows be ns id fs)) = failures be ns id fs
    /\ length (rows_in success (settled_rows be ns id fs))
       = length fs - failures be ns id fs
    /\ rows_in uploading (settled_rows be ns id fs) = [].
Proof.
  unfold rows_in.
  induction fs as [|f rest IH]; intros id; [repeat split|].
  destruct (IH (S id)) as (He & Hs & Hu).
  pose proof (failures_le be ns rest (S id)) as Hle.
  cbn [settled_rows failures List.filter]. rewrite !has_status_settled.
  destruct (failed (outcome be ns id f)); cbn [negb length]; rewrite ?He, ?Hs, ?Hu;
    repeat split; lia.
Qed.

(** With pairwise distinct file objects, a batch run leaves the rows it found
    as they were and, after them, one settled row per accepted file. *)
Lemma onDrop_final_batch (be : Backend) (w : World) (ns : jsstring) (fs : list File) :
  fs <> [] -> trim ns <> [] ->
  NoDup (refs (UploadState.files (upload w)) ++ (file_ref <$> fs)) ->
  UploadState.files (upload (world_of (run be (onDrop ns fs) w)))
  = UploadState.files (upload w) ++ settled_rows be ns (next_promise w) fs.
Proof.
  intros Hfs Hns Hnd. rewrite (run_onDrop be ns fs w Hfs Hns).
  cbn [world_of fst snd]. unfold after_onDrop, after_loop.
  cbn [set_upload set_next_promise set_globalMessage set_files upload UploadState.files].
  set (prev := UploadState.files (upload w)) in *. set (n := next_promise w).
  apply NoDup_app in Hnd as (_ & Hdisj & Hnew).
  apply list_eq. intros j. rewrite loop_batch_lookup.
  destruct (decide (j < length prev)) as [Hj|Hj].
  - rewrite !lookup_app_l by exact Hj.
    destruct (prev !! j) as [item|] eqn:Hitem; [|reflexivity].
    cbn [fmap option_fmap option_map]. f_equal.
    apply loop_item_other. intros Hin. apply (Hdisj (file_ref (file item))); [|exact Hin].
    unfold refs. apply list_elem_of_fmap. exists item. split; [reflexivity|].
    apply list_elem_of_lookup. exists j. exact Hitem.
  - rewrite !lookup_app_r by lia.
    rewrite list_lookup_fmap, settled_rows_lookup.
    destruct (fs !! (j - length prev)) as [f|] eqn:Hf; [|reflexivity].
    cbn [fmap option_fmap option_map]. f_equal.
    apply (loop_item_own be ns fs n (j - length prev) f); [exact Hnew | exact Hf | reflexivity].
Qed.

Lemma after_onDrop_rest (be : Backend) (ns : jsstring) (fs : list File) (w : World) :
  next_promise (after_onDrop be ns fs w) = next_promise w + length fs
  /\ localStorage (after_onDrop be ns fs w) = localStorage w
  /\ querier (after_onDrop be ns fs w) = querier w
  /\ UploadState.namespace (upload (after_onDrop be ns fs w)) = UploadState.namespace (upload w).
Proof. destruct w as [[] ? ? ?]. repeat split. Qed.


Lemma workspace_chars_id (x : jsstring) :
  Forall (fun c => is_workspace_char c = true) x -> workspace_chars x = x.
Proof.
  unfold workspace_chars. induction 1 as [|c x Hc _ IH]; [reflexivity|].
  cbn [List.filter]. rewrite Hc, IH. reflexivity.
Qed.

Lemma workspace_chars_all (x : jsstring) :
  Forall (fun c => is_workspace_char c = true) (workspace_chars x).
Proof.
  unfold workspace_chars. apply Forall_forall. intros c Hc.
  apply list_elem_of_In, filter_In in Hc. tauto.
Qed.

(** The world [handleNamespaceChange] leaves. *)
Lemma run_handleNamespaceChange (be : Backend) (w : World) (value : jsstring) :
  world_of (run be (handleNamespaceChange value) w)
  = {| upload := {| UploadState.files := UploadState.files (upload w);
                    UploadState.globalMessage := UploadState.globalMessage (upload w);
                    UploadState.namespace := workspace_chars value;
                    UploadState.namespaceError := [] |};
       querier := querier w;
       localStorage := <[contractNamespace := workspace_chars value]> (localStorage w);
       next_promise := next_promise w |}.
Proof.
  unfold handleNamespaceChange, setNamespace. rewrite sanitize_filter.
  destruct w as [[fs gm ns ne] q ls n]. reflexivity.
Qed.


(** A drop that passes both guards of [onDrop], in a session: the rows are
    appended, the first request is issued and the handler waits for it. *)
Lemma act_Drop_accepted (be : Backend) (s : Session) (f : File) (rest : list File) :
  trim (UploadState.namespace (upload (world s))) <> [] ->
  let w := world s in
  let ns := UploadState.namespace (upload w) in
  let batch := UploadState.files (upload w) ++ (newFile <$> f :: rest) in
  act be (Drop (f :: rest)) s
  = ({| world := set_next_promise (S (next_promise w))
                   (set_upload (set_files batch) (set_upload (set_globalMessage None) w));
        tasks := tasks s ++ [upload_task {| up_namespace := ns; up_file := f; up_rest := rest;
                                            up_successCount := 0; up_errorCount := 0;
                                            up_id := next_promise w |}];
        dropped := dropped s ++ (file_ref <$> f :: rest) |},
     [EvSetGlobalMessage None; EvSetFiles batch;
      EvRequest (next_promise w) (PostUploadContract f ns)]).
Proof.
  intros Hns. destruct s as [w ts dr]. cbn [world] in *. cbn zeta.
  unfold act, handle, onDrop. cbn [world tasks dropped length Nat.eqb].
  destruct (trim (UploadState.namespace (upload w))) as [|c t]; [congruence|].
  reflexivity.
Qed.

(** A waiting upload resumed with the outcome of its request. *)
Lemma until_await_resume (be : Backend) (u : Upload) (o : Outcome) (w : World) :
  until_await be (task_resume (upload_task u) o) w
  = let batch := settle_item (up_file u) o <$> UploadState.files (upload w) in
    let sc := if failed o then up_successCount u else S (up_successCount u) in
    let ec := if failed o then S (up_errorCount u) else up_errorCount u in
    let '(w2, t2, tr) :=
      until_await be (counts <- upload_each (up_namespace u) (up_rest u) sc ec ;;
                      conclude (up_namespace u) counts)
        (set_upload (set_files batch) w) in
    (w2, t2, EvSetFiles batch :: tr).
Proof.
  destruct u as [ns f rest sc ec id]. cbn [upload_task task_resume up_file up_rest
    up_namespace up_successCount up_errorCount].
  destruct o as [err|result]; cbn [loop_body failed].
  - reflexivity.
  - fold (failed (inr result)). rewrite (failed_fileResult result).
    destruct (failed (inr result)); reflexivity.
Qed.

Lemma act_ChangeNamespace (be : Backend) (s : Session) (value : jsstring) :
  (act be (ChangeNamespace value) s).1
  = {| world := world_of (run be (handleNamespaceChange value) (world s));
       tasks := tasks s; dropped := dropped s |}.
Proof.
  destruct s as [w ts dr]. unfold act, handle, handleNamespaceChange, setNamespace.
  cbn. rewrite app_nil_r. reflexivity.
Qed.

(* ===================================================================== *)
(** ** One step of a session, seen from the file objects of the list *)
(* ===================================================================== *)

Lemma files_settle (f : File) (o : Outcome) (batch : list FileUploadStatus) :
  file <$> (settle_item f o <$> batch) = file <$> batch.
Proof.
  rewrite <- list_fmap_compose. apply list_fmap_ext.
  intros i item _. cbn. apply settle_item_file.
Qed.

Lemma files_newFile (fs : list File) : file <$> (newFile <$> fs) = fs.
Proof.
  rewrite <- list_fmap_compose.
  rewrite (list_fmap_ext (file ∘ newFile) id) by reflexivity.
  apply list_fmap_id.
Qed.

(** When the waiting handlers are uploads of [onDrop]: a drop appends, a
    settlement and a workspace edit keep the file objects of the list as
    they are, and a click on a delete control leaves a sublist. *)
Lemma act_rows (be : Backend) (s : Session) (us : list Upload) (a : Action) :
  tasks s = upload_task <$> us ->
  let s' := (act be a s).1 in
  match a with
  | Drop acceptedFiles =>
      file <$> batch_of s'
      = (file <$> batch_of s)
        ++ (if is_empty (trim (UploadState.namespace (upload (world s)))) then []
            else acceptedFiles)
  | Settle _ | ChangeNamespace _ => file <$> batch_of s' = file <$> batch_of s
  | ClickDelete _ => sublist (batch_of s') (batch_of s)
  end.
Proof.
  intros Ht s'. subst s'. destruct a as [fs | t | index | value].
  - destruct fs as [|f rest].
    + destruct s as [w ts dr]. unfold batch_of. cbn.
      destruct (is_empty _); rewrite app_nil_r; reflexivity.
    + destruct (trim (UploadState.namespace (upload (world s)))) as [|c r] eqn:Hns.
      * destruct s as [[[fs gm ns ne] q ls n] ts dr]. cbn [world upload UploadState.namespace] in Hns.
        unfold act, handle, onDrop. cbn [world upload UploadState.namespace length Nat.eqb].
        rewrite Hns. cbn. rewrite app_nil_r. reflexivity.
      * assert (Hns' : trim (UploadState.namespace (upload (world s))) <> [])
          by (rewrite Hns; discriminate).
        rewrite (act_Drop_accepted be s f rest Hns'). cbn [fst is_empty].
        unfold batch_of. cbn [world]. destruct (world s) as [[fs gm ns ne] q ls n].
        cbn [set_next_promise set_upload set_files set_globalMessage upload UploadState.files].
        rewrite fmap_app, files_newFile. reflexivity.
  - unfold act. destruct (tasks s !! t) as [task|] eqn:Htask; [|reflexivity].
    rewrite Ht, list_lookup_fmap in Htask.
    destruct (us !! t) as [u|]; [|discriminate]. injection Htask as <-.
    cbn [upload_task task_promise promise_id promise_request].
    unfold handle. cbn [world tasks dropped].
    rewrite until_await_resume. cbn zeta.
    rewrite until_await_loop.
    unfold batch_of. destruct (world s) as [[fs gm ns ne] q ls n].
    destruct (up_rest u) as [|g rest]; cbn; apply files_settle.
  - unfold act, handle, clickDelete, batch_of.
    destruct (UploadState.files (upload (world s)) !! index) as [item|]; [|reflexivity].
    unfold deleteButton, removeFile.
    destruct (world s) as [[fs gm ns ne] q ls n].
    destruct (status item); cbn; [reflexivity | apply sublist_filter | apply sublist_filter].
  - rewrite act_ChangeNamespace. unfold batch_of. cbn [world].
    rewrite run_handleNamespaceChange. reflexivity.
Qed.

(* ===================================================================== *)
(** ** The query client, beyond the answered query *)
(* ===================================================================== *)

(** X1.  A rejected query.  When the rejection arrives, the handler shows an
    error text that is never empty (the [detail] of the response when there
    is a non-empty one, else the message of the error, else
    ['Failed to get answer']), ends the loading state and changes nothing
    else, whatever state the component is in by then: the answer and the
    sources stay what they are at that moment.  In a run of [handleSubmit]
    on its own, where nothing else happens between the request and its
    rejection, they are empty, as the handler left them when it sent the
    request. *)
Theorem X1_rejected_query_shows_error
    (be : Backend) (w : World) (query ns : jsstring) :
  trim query <> [] ->
  localStorage w !! contractNamespace = Some ns ->
  ns <> [] ->
  let shown err :=
    match detail err with
    | Some (c :: d) => c :: d
    | Some [] | None =>
        match error_message err with
        | c :: m => c :: m
        | [] => lit "Failed to get answer"
        end
    end in
  (exists w1 resume tr,
     until_await be (handleSubmit query) w
     = (w1,
        Some {| task_promise := {| promise_id := next_promise w;
                                   promise_request := QueryRequest query 10 ns |};
                task_resume := resume |},
        tr)
     /\ forall (err : AxiosError) (w' : World),
          shown err <> []
          /\ until_await be (resume (inl err)) w'
             = ({| upload := upload w';
                   querier := {| QueryState.query := QueryState.query (querier w');
                                 QueryState.answer := QueryState.answer (querier w');
                                 QueryState.sources := QueryState.sources (querier w');
                                 QueryState.loading := false;
                                 QueryState.error := shown err |};
                   localStorage := localStorage w';
                   next_promise := next_promise w' |},
                None,
                [EvSetError (shown err); EvSetLoading false]))
  /\ forall err,
       be _ (next_promise w) (QueryRequest query 10 ns) = inl err ->
       let o := run be (handleSubmit query) w in
       QueryState.answer (querier (world_of o)) = []
       /\ QueryState.sources (querier (world_of o)) = []
       /\ QueryState.loading (querier (world_of o)) = false
       /\ QueryState.error (querier (world_of o)) = shown err.
Proof.
  intros Hq Hns Hne shown.
  assert (Hshown : forall err, query_error_text err = shown err).
  { intros err. unfold query_error_text, opt_or, js_or, shown.
    destruct (detail err) as [[|c d]|]; cbn; try reflexivity;
      destruct (error_message err); reflexivity. }
  split.
  - unfold handleSubmit, getNamespace.
    destruct (trim query) as [|c s]; [congruence|].
    cbn [is_empty bind perform until_await await_of step]. rewrite Hns.
    destruct ns as [|c0 s0]; [congruence|].
    do 3 eexists. split; [reflexivity|].
    intros err w'. split.
    + rewrite <- Hshown. apply query_error_text_nonempty.
    + rewrite <- Hshown. destruct w' as [u [q a so l e] ls n]. reflexivity.
  - intros err Hbe o. subst o.
    rewrite (run_handleSubmit be w query ns Hq Hns Hne), run_submit.
    cbn [world_of fst snd querier QueryState.answer QueryState.sources
         QueryState.loading QueryState.error]. unfold topK. rewrite Hbe.
    rewrite Hshown. repeat split.
Qed.

Lemma X1_rejected_query_shows_error_witness :
  let o := run unreachable_backend (handleSubmit (lit "what is the term?")) acme_world in
  QueryState.answer (querier (world_of o)) = []
  /\ QueryState.sources (querier (world_of o)) = []
  /\ QueryState.loading (querier (world_of o)) = false
  /\ QueryState.error (querier (world_of o)) = lit "Network Error".
Proof.
  refine (proj2 (X1_rejected_query_shows_error unreachable_backend acme_world
                   (lit "what is the term?") (lit "acme") _ _ _)
            {| detail := None; error_message := lit "Network Error" |} _).
  - vm_compute. discriminate.
  - vm_compute. reflexivity.
  - discriminate.
  - reflexivity.
Defined.

(** X2.  Whatever the question, the stored workspace and the backend's
    answer, [handleSubmit] leaves the upload component, local storage and the
    text of the question as they were, issues at most one request and leaves
    none outstanding when it returns. *)
Theorem X2_handleSubmit_touches_the_result_only
    (be : Backend) (w : World) (query : jsstring) :
  let o := run be (handleSubmit query) w in
  upload (world_of o) = upload w
  /\ localStorage (world_of o) = localStorage w
  /\ QueryState.query (querier (world_of o)) = QueryState.query (querier w)
  /\ length (requests (trace_of o)) <= 1
  /\ in_flight (trace_of o) = [].
Proof.
  cbn zeta. destruct (trim query) as [|c s] eqn:Hq.
  { unfold handleSubmit. rewrite Hq. cbn. repeat split; lia. }
  assert (Hq' : trim query <> []) by (rewrite Hq; discriminate).
  destruct (localStorage w !! contractNamespace) as [[|c0 s0]|] eqn:Hns.
  - unfold handleSubmit, getNamespace. rewrite Hq.
    cbn [is_empty bind perform run step]. rewrite Hns. cbn. repeat split; lia.
  - rewrite (run_handleSubmit be w query (c0 :: s0) Hq' Hns) by discriminate.
    rewrite run_submit. cbn [world_of trace_of fst snd upload localStorage querier
                             QueryState.query].
    split; [reflexivity|]. split; [reflexivity|]. split; [reflexivity|].
    destruct (be QueryResponse.t (next_promise w) (QueryRequest query topK (c0 :: s0)));
      (split; [cbn; lia | unfold in_flight; cbn; rewrite Nat.eqb_refl; reflexivity]).
  - unfold handleSubmit, getNamespace. rewrite Hq.
    cbn [is_empty bind perform run step]. rewrite Hns. cbn. repeat split; lia.
Qed.

(** X3.  The previous result is cleared when the request is sent, not when
    the response arrives.  From any state, once [handleSubmit] has issued
    its request and waits for it, the component is loading and its answer,
    sources and error are empty.  When the response arrives, the handler
    shows its answer and its sources and ends the loading state, whatever
    state the component is in by then, and leaves the error as it is: this
    also when a query sent later is still waiting for its response. *)
Theorem X3_result_cleared_when_the_request_is_sent
    (be : Backend) (w : World) (query ns : jsstring) :
  trim query <> [] ->
  localStorage w !! contractNamespace = Some ns ->
  ns <> [] ->
  exists w1 resume tr,
    until_await be (handleSubmit query) w
    = (w1,
       Some {| task_promise := {| promise_id := next_promise w;
                                  promise_request := QueryRequest query 10 ns |};
               task_resume := resume |},
       tr)
    /\ querier w1 = {| QueryState.query := QueryState.query (querier w);
                       QueryState.answer := [];
                       QueryState.sources := [];
                       QueryState.loading := true;
                       QueryState.error := [] |}
    /\ requests tr = [(next_promise w, PostQuery query 10 ns)]
    /\ forall (result : QueryResponse.t) (w' : World),
         until_await be (resume (inr result)) w'
         = ({| upload := upload w';
               querier := {| QueryState.query := QueryState.query (querier w');
                             QueryState.answer := QueryResponse.answer result;
                             QueryState.sources := QueryResponse.sources result;
                             QueryState.loading := false;
                             QueryState.error := QueryState.error (querier w') |};
               localStorage := localStorage w';
               next_promise := next_promise w' |},
            None,
            [EvSetAnswer (QueryResponse.answer result);
             EvSetSources (QueryResponse.sources result);
             EvSetLoading false]).
Proof.
  intros Hq Hns Hne. unfold handleSubmit, getNamespace.
  destruct (trim query) as [|c s]; [congruence|].
  cbn [is_empty bind perform until_await await_of step]. rewrite Hns.
  destruct ns as [|c0 s0]; [congruence|].
  destruct w as [u [q a so l e] ls n].
  do 3 eexists. split; [reflexivity|]. split; [reflexivity|]. split; [reflexivity|].
  intros result [u' [q' a' so' l' e'] ls' n']. reflexivity.
Qed.

Lemma X3_result_cleared_when_the_request_is_sent_witness :
  exists w1 resume tr,
    until_await sample_backend (handleSubmit (lit "what is the term?")) sample_done_world
    = (w1,
       Some {| task_promise :=
                 {| promise_id := next_promise sample_done_world;
                    promise_request := QueryRequest (lit "what is the term?") 10 (lit "acme") |};
               task_resume := resume |},
       tr)
    /\ querier w1 = {| QueryState.query := QueryState.query (querier sample_done_world);
                       QueryState.answer := [];
                       QueryState.sources := [];
                       QueryState.loading := true;
                       QueryState.error := [] |}
    /\ requests tr = [(next_promise sample_done_world,
                       PostQuery (lit "what is the term?") 10 (lit "acme"))]
    /\ forall (result : QueryResponse.t) (w' : World),
         until_await sample_backend (resume (inr result)) w'
         = ({| upload := upload w';
               querier := {| QueryState.query := QueryState.query (querier w');
                             QueryState.answer := QueryResponse.answer result;
                             QueryState.sources := QueryResponse.sources result;
                             QueryState.loading := false;
                             QueryState.error := QueryState.error (querier w') |};
               localStorage := localStorage w';
               next_promise := next_promise w' |},
            None,
            [EvSetAnswer (QueryResponse.answer result);
             EvSetSources (QueryResponse.sources result);
             EvSetLoading false]).
Proof.
  apply (X3_result_cleared_when_the_request_is_sent sample_backend sample_done_world
           (lit "what is the term?") (lit "acme")).
  - vm_compute. discriminate.
  - vm_compute. reflexivity.
  - discriminate.
Defined.

(** X4.  [handleKeyPress] starts [handleSubmit] on Enter without Shift and
    does nothing on any other key.  The submit button is disabled while a
    query is loading, but the key handler has no such guard: Enter pressed
    while the first request is outstanding issues the same query again, and
    two requests are then in flight. *)
Theorem X4_enter_submits_while_button_disabled
    (be : Backend) (w : World) (query ns : jsstring) :
  QueryState.query (querier w) = query ->
  trim query <> [] ->
  localStorage w !! contractNamespace = Some ns ->
  ns <> [] ->
  (forall key shiftKey,
      key <> lit "Enter" \/ shiftKey = true ->
      handleKeyPress key shiftKey query = (false, Ret tt))
  /\ exists w1 t1 tr1 w2 t2 tr2,
       until_await be (handleSubmit query) w = (w1, Some t1, tr1)
       /\ submitDisabled (querier w1) = true
       /\ until_await be (handleKeyPress (lit "Enter") false query).2 w1 = (w2, Some t2, tr2)
       /\ requests (tr1 ++ tr2) = [(next_promise w, PostQuery query 10 ns);
                                   (S (next_promise w), PostQuery query 10 ns)]
       /\ in_flight (tr1 ++ tr2) = [next_promise w; S (next_promise w)].
Proof.
  intros Hfield Hq Hns Hne. split.
  - intros key shiftKey Hkey. unfold handleKeyPress.
    destruct Hkey as [Hkey | ->].
    + rewrite bool_decide_eq_false_2 by exact Hkey. reflexivity.
    + rewrite andb_false_r. reflexivity.
  - unfold handleKeyPress. rewrite bool_decide_eq_true_2 by reflexivity.
    cbn [andb negb snd]. unfold handleSubmit, getNamespace.
    destruct w as [u [q a so l e] ls n].
    cbn [localStorage querier QueryState.query] in Hfield, Hns.
    destruct (trim query) as [|c s] eqn:Htrim; [congruence|].
    cbn [is_empty bind perform until_await await_of step localStorage]. rewrite Hns.
    destruct ns as [|c0 s0]; [congruence|].
    do 6 eexists. split; [reflexivity|]. cbn [fst snd].
    split; [cbn; reflexivity|]. split.
    + cbn [bind perform until_await await_of step localStorage set_querier
           set_next_promise set_loading set_answer set_sources set_error].
      rewrite Hns. reflexivity.
    + split; reflexivity.
Qed.

Lemma X4_enter_submits_while_button_disabled_witness :
  let query := lit "what is the term?" in
  (forall key shiftKey,
      key <> lit "Enter" \/ shiftKey = true ->
      handleKeyPress key shiftKey query = (false, Ret tt))
  /\ exists w1 t1 tr1 w2 t2 tr2,
       until_await sample_backend (handleSubmit query) asking_world = (w1, Some t1, tr1)
       /\ submitDisabled (querier w1) = true
       /\ until_await sample_backend (handleKeyPress (lit "Enter") false query).2 w1
          = (w2, Some t2, tr2)
       /\ requests (tr1 ++ tr2) = [(0, PostQuery query 10 (lit "acme"));
                                   (1, PostQuery query 10 (lit "acme"))]
       /\ in_flight (tr1 ++ tr2) = [0; 1].
Proof.
  apply (X4_enter_submits_while_button_disabled sample_backend asking_world
           (lit "what is the term?") (lit "acme")).
  - reflexivity.
  - vm_compute. discriminate.
  - vm_compute. reflexivity.
  - discriminate.
Defined.

(* ===================================================================== *)
(** ** The upload handler, beyond its requests *)
(* ===================================================================== *)

(** X5.  Whatever is dropped and whatever the backend answers, [onDrop]
    never changes the workspace name, local storage or the query component.
    A drop of no files does nothing at all, and a drop under a workspace
    name that is not blank leaves the workspace error as it was. *)
Theorem X5_onDrop_touches_the_batch_only
    (be : Backend) (w : World) (ns : jsstring) (acceptedFiles : list File) :
  let o := run be (onDrop ns acceptedFiles) w in
  UploadState.namespace (upload (world_of o)) = UploadState.namespace (upload w)
  /\ localStorage (world_of o) = localStorage w
  /\ querier (world_of o) = querier w
  /\ (acceptedFiles = [] -> o = (tt, w, []))
  /\ (trim ns <> [] ->
      UploadState.namespaceError (upload (world_of o)) = UploadState.namespaceError (upload w)).
Proof.
  cbn zeta. destruct acceptedFiles as [|f rest].
  { cbn. repeat split. }
  assert (Hfs : f :: rest <> []) by discriminate.
  destruct (trim ns) as [|c s] eqn:Hns.
  - rewrite (run_onDrop_unbound be ns (f :: rest) w Hfs Hns).
    cbn. repeat split; congruence.
  - assert (Hns' : trim ns <> []) by (rewrite Hns; discriminate).
    rewrite (run_onDrop be ns (f :: rest) w Hfs Hns').
    cbn. repeat split; congruence.
Qed.

Lemma X5_onDrop_touches_the_batch_only_witness :
  run sample_backend (onDrop (lit "acme") []) sample_done_world = (tt, sample_done_world, [])
  /\ UploadState.namespaceError
       (upload (world_of (run sample_backend (onDrop (lit "acme") [pdf 4 "d.pdf"])
                            sample_done_world)))
     = UploadState.namespaceError (upload sample_done_world).
Proof.
  split.
  - apply (X5_onDrop_touches_the_batch_only sample_backend sample_done_world (lit "acme") []).
    reflexivity.
  - apply (X5_onDrop_touches_the_batch_only sample_backend sample_done_world (lit "acme")
             [pdf 4 "d.pdf"]).
    vm_compute. discriminate.
Defined.

(** X6.  Rows leave the list through the delete control only.

    One run of [onDrop] that passes the guards, on its own (nothing else
    happens before it returns): the file objects of the list are then those
    that were there, in their order, followed by the accepted files in the
    order they were dropped.

    Any session that starts on an empty list with fresh files at every
    drop, whatever happens next: a drop adds its files at the end of the
    list (none when the workspace name is blank), a settlement and a
    workspace edit keep the file objects of the list as they are, and a
    click on a delete control leaves a sublist of the list. *)
Theorem X6_onDrop_appends_the_accepted_files (be : Backend) :
  (forall (w : World) (ns : jsstring) (acceptedFiles : list File),
     acceptedFiles <> [] ->
     trim ns <> [] ->
     let after := UploadState.files (upload (world_of (run be (onDrop ns acceptedFiles) w))) in
     file <$> after = (file <$> UploadState.files (upload w)) ++ acceptedFiles
     /\ length after = length (UploadState.files (upload w)) + length acceptedFiles)
  /\
  (forall (actions : list Action) (w : World) (a : Action),
     UploadState.files (upload w) = [] ->
     all_fresh be actions (start w) ->
     let s := session be actions (start w) in
     let s' := (act be a s).1 in
     match a with
     | Drop acceptedFiles =>
         file <$> batch_of s'
         = (file <$> batch_of s)
           ++ (if is_empty (trim (UploadState.namespace (upload (world s)))) then []
               else acceptedFiles)
     | Settle _ | ChangeNamespace _ => file <$> batch_of s' = file <$> batch_of s
     | ClickDelete _ => sublist (batch_of s') (batch_of s)
     end).
Proof.
  split.
  - intros w ns acceptedFiles Hfs Hns after. subst after.
    rewrite (run_onDrop be ns acceptedFiles w Hfs Hns).
    cbn [world_of fst snd]. unfold after_onDrop, after_loop.
    cbn [set_upload set_next_promise set_globalMessage set_files upload UploadState.files].
    split.
    + rewrite files_loop_batch, fmap_app, files_newFile. reflexivity.
    + rewrite loop_batch_length, length_app, length_fmap. reflexivity.
  - intros actions w a Hw Hfresh s.
    destruct (session_consistent be actions (start w) [] (start_consistent w Hw) Hfresh)
      as (us & Hc).
    exact (act_rows be s us a (c_tasks s us Hc)).
Qed.

Lemma X6_onDrop_appends_the_accepted_files_witness :
  (let dropped_again := [pdf 2 "b.pdf"; pdf 4 "d.pdf"] in
   let after :=
     UploadState.files
       (upload (world_of (run sample_backend (onDrop (lit "acme") dropped_again)
                            sample_done_world))) in
   file <$> after = (file <$> UploadState.files (upload sample_done_world)) ++ dropped_again
   /\ length after = length (UploadState.files (upload sample_done_world)) + 2)
  /\
  (let s := session sample_backend [Drop [pdf 1 "a.pdf"; pdf 2 "b.pdf"]; Settle 0]
              (start acme_world) in
   sublist (batch_of (act sample_backend (ClickDelete 0) s).1) (batch_of s)
   /\ file <$> batch_of (act sample_backend (Settle 0) s).1 = file <$> batch_of s).
Proof.
  destruct (X6_onDrop_appends_the_accepted_files sample_backend) as [Hrun Hsession].
  assert (Hfresh : all_fresh sample_backend [Drop [pdf 1 "a.pdf"; pdf 2 "b.pdf"]; Settle 0]
                     (start acme_world)).
  { cbn [all_fresh fresh]. split; [|split; exact I].
    split.
    - apply (bool_decide_unpack _). vm_compute. reflexivity.
    - intros r _. apply not_elem_of_nil. }
  split; [|split].
  - apply (Hrun sample_done_world (lit "acme") [pdf 2 "b.pdf"; pdf 4 "d.pdf"]).
    + discriminate.
    + vm_compute. discriminate.
  - exact (Hsession [Drop [pdf 1 "a.pdf"; pdf 2 "b.pdf"]; Settle 0] acme_world
             (ClickDelete 0) eq_refl Hfresh).
  - exact (Hsession [Drop [pdf 1 "a.pdf"; pdf 2 "b.pdf"]; Settle 0] acme_world
             (Settle 0) eq_refl Hfresh).
Defined.

(** X7.  The summary agrees with the list when the batch runs on its own.
    One run of [onDrop], with nothing else happening between the drop and
    the summary (no row deleted and no other drop in particular), on file
    objects that are pairwise distinct: the rows that were there are
    unchanged, the new rows are one per accepted file, none of them still
    [uploading], and the summary message is the one for the number of new
    rows in status [success] and the number in status [error]. *)
Theorem X7_summary_counts_the_rows
    (be : Backend) (w : World) (acceptedFiles : list File) :
  acceptedFiles <> [] ->
  trim (UploadState.namespace (upload w)) <> [] ->
  NoDup (refs (UploadState.files (upload w)) ++ (file_ref <$> acceptedFiles)) ->
  let ns := UploadState.namespace (upload w) in
  let prev := UploadState.files (upload w) in
  let w' := world_of (run be (onDrop ns acceptedFiles) w) in
  let after := UploadState.files (upload w') in
  let new := drop (length prev) after in
  take (length prev) after = prev
  /\ length new = length acceptedFiles
  /\ rows_in uploading new = []
  /\ length (rows_in success new) + length (rows_in error new) = length acceptedFiles
  /\ UploadState.globalMessage (upload w')
     = Some (summary ns (length (rows_in success new)) (length (rows_in error new))).
Proof.
  intros Hfs Hns Hnd ns prev w' after new. subst new after w'.
  rewrite (onDrop_final_batch be w ns acceptedFiles Hfs Hns Hnd). fold prev.
  rewrite take_app_length, drop_app_length.
  destruct (settled_rows_status be ns acceptedFiles (next_promise w)) as (He & Hs & Hu).
  pose proof (failures_le be ns acceptedFiles (next_promise w)) as Hle.
  split; [reflexivity|]. split; [apply settled_rows_length|].
  split; [exact Hu|]. split; [rewrite He, Hs; lia|].
  rewrite He, Hs, (run_onDrop be ns acceptedFiles w Hfs Hns). reflexivity.
Qed.

Lemma X7_summary_counts_the_rows_witness :
  let w := acme_world in
  let acceptedFiles := [pdf 1 "a.pdf"; pdf 2 "b.pdf"; pdf 3 "c.pdf"] in
  let ns := UploadState.namespace (upload w) in
  let prev := UploadState.files (upload w) in
  let w' := world_of (run sample_backend (onDrop ns acceptedFiles) w) in
  let after := UploadState.files (upload w') in
  let new := drop (length prev) after in
  take (length prev) after = prev
  /\ length new = length acceptedFiles
  /\ rows_in uploading new = []
  /\ length (rows_in success new) + length (rows_in error new) = length acceptedFiles
  /\ UploadState.globalMessage (upload w')
     = Some (summary ns (length (rows_in success new)) (length (rows_in error new))).
Proof.
  apply (X7_summary_counts_the_rows sample_backend acme_world
           [pdf 1 "a.pdf"; pdf 2 "b.pdf"; pdf 3 "c.pdf"]).
  - discriminate.
  - vm_compute. discriminate.
  - apply (bool_decide_unpack _). vm_compute. reflexivity.
Defined.

(** X8.  What a row reads after its batch has run on its own (nothing else
    happening between the drop and the summary), on file objects that are
    pairwise distinct.  For a rejected request: [Error: ] and the [detail]
    of the response when there is a non-empty one, else the message of the
    error.  For a response whose first result has status ['error']:
    [Error: ] and the message of the result, or [Error: undefined] when the
    result carries none.  Otherwise the success text around what the
    template literal prints for the number of chunks of the result, or for
    the total of the response when it has no result: the decimal digits of
    a safe integer, [undefined] for a result without a count. *)
Theorem X8_row_text_after_upload
    (be : Backend) (w : World) (acceptedFiles : list File) (i : nat) (f : File) :
  acceptedFiles <> [] ->
  trim (UploadState.namespace (upload w)) <> [] ->
  NoDup (refs (UploadState.files (upload w)) ++ (file_ref <$> acceptedFiles)) ->
  acceptedFiles !! i = Some f ->
  let ns := UploadState.namespace (upload w) in
  let prev := UploadState.files (upload w) in
  let after := UploadState.files (upload (world_of (run be (onDrop ns acceptedFiles) w))) in
  let processed count :=
    lit "Processed successfully! " ++ count ++ lit " sections analyzed." in
  exists row,
    after !! (length prev + i) = Some row
    /\ file row = f
    /\ match be _ (next_promise w + i) (UploadContractRequest f ns) with
       | inl err =>
           rowText row
           = lit "Error: " ++ match detail err with
                              | Some (c :: d) => c :: d
                              | Some [] | None => error_message err
                              end
       | inr result =>
           match UploadResponse.results result with
           | Some (r :: _) =>
               match UploadResult.status r with
               | UploadResult.success =>
                   exists count,
                     rowText row = processed count
                     /\ prints_as (UploadResult.chunks_created r) count
               | UploadResult.error =>
                   rowText row
                   = lit "Error: " ++ match UploadResult.message r with
                                      | Some m => m
                                      | None => lit "undefined"
                                      end
               end
           | Some [] | None =>
               exists count,
                 rowText row = processed count
                 /\ prints_as (Some (UploadResponse.total_chunks result)) count
           end
       end.
Proof.
  intros Hfs Hns Hnd Hi ns prev after processed. subst after processed.
  rewrite (onDrop_final_batch be w ns acceptedFiles Hfs Hns Hnd). fold prev.
  rewrite lookup_app_r by lia.
  replace (length prev + i - length prev) with i by lia.
  rewrite settled_rows_lookup, Hi. cbn [fmap option_fmap option_map].
  eexists. split; [reflexivity|]. split; [apply settle_item_file|].
  unfold outcome. destruct (be UploadResponse.t (next_promise w + i) (UploadContractRequest f ns))
    as [err|result]; cbn [settle_item].
  - unfold mark_error, rowText. cbn [newFile file]. unfold same_file. rewrite Nat.eqb_refl.
    cbn [status message]. unfold opt_or, js_or.
    destruct (detail err) as [[|c d]|]; reflexivity.
  - unfold mark_result, rowText, fileResult_of. cbn [newFile file].
    unfold same_file. rewrite Nat.eqb_refl.
    destruct (UploadResponse.results result) as [[|r rs]|];
      cbn [FileResult.status FileResult.chunks_created FileResult.message status message].
    + eexists. split; [reflexivity|]. intros _. reflexivity.
    + destruct (UploadResult.status r); cbn [status message]; [|reflexivity].
      eexists. split; [reflexivity|]. apply prints_as_interpolate.
    + eexists. split; [reflexivity|]. intros _. reflexivity.
Qed.

Lemma X8_row_text_after_upload_witness :
  let acceptedFiles := [pdf 1 "a.pdf"; pdf 2 "b.pdf"; pdf 3 "c.pdf"] in
  let after :=
    UploadState.files
      (upload (world_of (run sample_backend (onDrop (lit "acme") acceptedFiles) acme_world))) in
  exists row,
    after !! 1 = Some row
    /\ file row = pdf 2 "b.pdf"
    /\ rowText row = lit "Error: Unsupported PDF".
Proof.
  apply (X8_row_text_after_upload sample_backend acme_world
           [pdf 1 "a.pdf"; pdf 2 "b.pdf"; pdf 3 "c.pdf"] 1 (pdf 2 "b.pdf")).
  - discriminate.
  - vm_compute. discriminate.
  - apply (bool_decide_unpack _). vm_compute. reflexivity.
  - reflexivity.
Defined.

(* ===================================================================== *)
(** ** The workspace name, from the field to the requests *)
(* ===================================================================== *)

(** X9.  A name the field holds is a fixed point of the sanitiser: handing
    [handleNamespaceChange] the name it has just stored changes nothing at
    all, in state or in local storage, and issues no request. *)
Theorem X9_held_name_is_a_fixed_point (be : Backend) (w : World) (x : jsstring) :
  let w1 := world_of (run be (handleNamespaceChange x) w) in
  let o := run be (handleNamespaceChange (UploadState.namespace (upload w1))) w1 in
  world_of o = w1 /\ requests (trace_of o) = [].
Proof.
  cbn zeta. split.
  - rewrite !run_handleNamespaceChange.
    cbn [upload UploadState.namespace UploadState.files UploadState.globalMessage
         querier localStorage next_promise].
    rewrite (workspace_chars_id _ (workspace_chars_all x)), insert_insert_eq. reflexivity.
  - reflexivity.
Qed.



(** X11.  The workspace name outlives the page.  A page loaded on the local
    storage that [handleNamespaceChange] left starts with the sanitised name
    in the workspace field, and [getNamespace] returns it; the batch and the
    summary do not survive. *)
Theorem X11_workspace_survives_reload (be : Backend) (w : World) (x : jsstring) :
  let w' := world_of (run be (handleNamespaceChange x) w) in
  let reloaded := fresh_world (localStorage w') in
  UploadState.namespace (upload reloaded) = UploadState.namespace (upload w')
  /\ UploadState.namespace (upload reloaded) = workspace_chars x
  /\ result_of (run be getNamespace reloaded) = Some (workspace_chars x)
  /\ UploadState.files (upload reloaded) = []
  /\ UploadState.globalMessage (upload reloaded) = None.
Proof.
  cbn zeta. rewrite run_handleNamespaceChange. unfold fresh_world, getNamespace.
  cbn [upload UploadState.namespace UploadState.files UploadState.globalMessage
       localStorage perform run step result_of fst snd].
  rewrite lookup_insert_eq. unfold opt_or, js_or.
  destruct (workspace_chars x); repeat split.
Qed.

(** X12.  The two components agree on the workspace.  After the user has
    entered a name with at least one workspace character, an upload and a
    later query both carry that sanitised name as namespace, the upload
    taking it from the state of its component and the query from local
    storage. *)
Theorem X12_same_workspace_for_upload_and_query
    (be : Backend) (w : World) (x : jsstring) (acceptedFiles : list File) (query : jsstring) :
  workspace_chars x <> [] ->
  acceptedFiles <> [] ->
  trim query <> [] ->
  let w1 := world_of (run be (handleNamespaceChange x) w) in
  let up := run be (onDrop (UploadState.namespace (upload w1)) acceptedFiles) w1 in
  let ask := run be (handleSubmit query) (world_of up) in
  requests (trace_of up)
  = imap (fun i f => (next_promise w + i, PostUploadContract f (workspace_chars x)))
         acceptedFiles
  /\ requests (trace_of ask)
     = [(next_promise w + length acceptedFiles, PostQuery query 10 (workspace_chars x))].
Proof.
  intros Hx Hfs Hq w1 up ask. subst ask up w1.
  rewrite run_handleNamespaceChange. cbn [upload UploadState.namespace].
  assert (Hns : trim (workspace_chars x) <> [])
    by (apply workspace_id_not_blank; [apply workspace_chars_all | exact Hx]).
  rewrite (run_onDrop be (workspace_chars x) acceptedFiles _ Hfs Hns).
  cbn [trace_of world_of fst snd requests next_promise].
  split.
  - rewrite requests_app, requests_loop_trace. apply app_nil_r.
  - set (w1 := {| upload := _; querier := querier w; localStorage := _;
                  next_promise := next_promise w |}).
    destruct (after_onDrop_rest be (workspace_chars x) acceptedFiles w1) as (Hn & Hls & _ & _).
    rewrite (run_handleSubmit be _ query (workspace_chars x) Hq);
      [|rewrite Hls; apply lookup_insert_eq | exact Hx].
    rewrite requests_submit, Hn. reflexivity.
Qed.

Lemma X12_same_workspace_for_upload_and_query_witness :
  let w1 := world_of (run sample_backend (handleNamespaceChange (lit "acme corp!"))
                        (fresh_world ∅)) in
  let up := run sample_backend
              (onDrop (UploadState.namespace (upload w1)) [pdf 1 "a.pdf"; pdf 2 "b.pdf"]) w1 in
  let ask := run sample_backend (handleSubmit (lit "what is the term?")) (world_of up) in
  requests (trace_of up)
  = [(0, PostUploadContract (pdf 1 "a.pdf") (lit "acmecorp"));
     (1, PostUploadContract (pdf 2 "b.pdf") (lit "acmecorp"))]
  /\ requests (trace_of ask)
     = [(2, PostQuery (lit "what is the term?") 10 (lit "acmecorp"))].
Proof.
  apply (X12_same_workspace_for_upload_and_query sample_backend (fresh_world ∅)
           (lit "acme corp!") [pdf 1 "a.pdf"; pdf 2 "b.pdf"] (lit "what is the term?")).
  - vm_compute. discriminate.
  - discriminate.
  - vm_compute. discriminate.
Defined.

(** X13.  [clearNamespace] unbinds the query component only.  After it,
    [getNamespace] finds nothing and a question is refused with the
    missing-workspace error and no request, while the upload component is
    untouched: its field still holds the name. *)
Theorem X13_clearNamespace_unbinds_the_query_only
    (be : Backend) (w : World) (query : jsstring) :
  trim query <> [] ->
  let w1 := world_of (run be clearNamespace w) in
  let ask := run be (handleSubmit query) w1 in
  result_of (run be getNamespace w1) = None
  /\ upload w1 = upload w
  /\ requests (trace_of ask) = []
  /\ QueryState.error (querier (world_of ask))
     = lit "Please upload documents first to set a workspace name.".
Proof.
  intros Hq w1 ask. subst ask w1. unfold clearNamespace, handleSubmit, getNamespace.
  destruct (trim query) as [|c s]; [congruence|].
  cbn [is_empty bind perform run step world_of result_of fst snd localStorage
       set_localStorage upload].
  rewrite lookup_delete_eq. repeat split.
Qed.

Lemma X13_clearNamespace_unbinds_the_query_only_witness :
  let w1 := world_of (run sample_backend clearNamespace acme_world) in
  let ask := run sample_backend (handleSubmit (lit "what is the term?")) w1 in
  result_of (run sample_backend getNamespace w1) = None
  /\ upload w1 = upload acme_world
  /\ requests (trace_of ask) = []
  /\ QueryState.error (querier (world_of ask))
     = lit "Please upload documents first to set a workspace name.".
Proof.
  apply (X13_clearNamespace_unbinds_the_query_only sample_backend acme_world
           (lit "what is the term?")).
  vm_compute. discriminate.
Defined.

(** X14.  The two guards are not the same test.  [onDrop] refuses a name
    that is blank after trimming, [handleSubmit] refuses only a missing or
    empty one.  With a name made of white space in the state and in local
    storage (the name field cannot put it there, other code can), a drop
    sends nothing and a question is sent, under that name. *)
Theorem X14_guards_differ_on_a_blank_name
    (be : Backend) (w : World) (ns : jsstring) (acceptedFiles : list File) (query : jsstring) :
  ns <> [] -> trim ns = [] ->
  UploadState.namespace (upload w) = ns ->
  localStorage w !! contractNamespace = Some ns ->
  acceptedFiles <> [] ->
  trim query <> [] ->
  requests (trace_of (run be (onDrop (UploadState.namespace (upload w)) acceptedFiles) w)) = []
  /\ requests (trace_of (run be (handleSubmit query) w))
     = [(next_promise w, PostQuery query 10 ns)].
Proof.
  intros Hne Hblank Hstate Hstored Hfs Hq. split.
  - rewrite Hstate, (run_onDrop_unbound be ns acceptedFiles w Hfs Hblank). reflexivity.
  - rewrite (run_handleSubmit be w query ns Hq Hstored Hne). apply requests_submit.
Qed.

Lemma X14_guards_differ_on_a_blank_name_witness :
  requests (trace_of (run sample_backend
                        (onDrop (UploadState.namespace (upload blank_world)) [pdf 1 "a.pdf"])
                        blank_world)) = []
  /\ requests (trace_of (run sample_backend (handleSubmit (lit "what is the term?"))
                           blank_world))
     = [(0, PostQuery (lit "what is the term?") 10 (lit " "))].
Proof.
  apply (X14_guards_differ_on_a_blank_name sample_backend blank_world (lit " ")
           [pdf 1 "a.pdf"] (lit "what is the term?")).
  - discriminate.
  - vm_compute. reflexivity.
  - vm_compute. reflexivity.
  - vm_compute. reflexivity.
  - discriminate.
  - vm_compute. discriminate.
Defined.

(* ===================================================================== *)
(** ** Sessions: drops, edits and clicks that interleave *)
(* ===================================================================== *)

(** X15.  Uploads are one at a time within a drop, not across drops.  The
    drop zone stays enabled while a batch runs, and a second drop made while
    the first request of the first one is outstanding starts a handler of
    its own: two handlers wait, two requests are in flight, and the batch
    holds the files of both drops after those it had. *)
Theorem X15_a_second_drop_overlaps_the_first
    (be : Backend) (w : World) (first second : list File) :
  first <> [] -> second <> [] ->
  trim (UploadState.namespace (upload w)) <> [] ->
  let a1 := act be (Drop first) (start w) in
  let a2 := act be (Drop second) a1.1 in
  length (tasks a2.1) = 2
  /\ in_flight (a1.2 ++ a2.2) = [next_promise w; S (next_promise w)]
  /\ file <$> batch_of a2.1 = (file <$> UploadState.files (upload w)) ++ first ++ second.
Proof.
  intros H1 H2 Hns a1 a2. subst a2 a1.
  destruct first as [|f1 r1]; [congruence|]. destruct second as [|f2 r2]; [congruence|].
  rewrite (act_Drop_accepted be (start w) f1 r1 Hns). cbn [fst snd].
  rewrite act_Drop_accepted by exact Hns.
  cbn [fst snd tasks world start app length]. split; [reflexivity|]. split.
  - reflexivity.
  - unfold batch_of. cbn [world]. destruct w as [[fs gm ns ne] q ls n].
    cbn. rewrite !fmap_app, !fmap_cons, <- !list_fmap_compose.
    cbn [newFile file]. rewrite <- app_assoc.
    rewrite !(list_fmap_ext (file ∘ newFile) id) by reflexivity.
    rewrite !list_fmap_id. reflexivity.
Qed.

Lemma X15_a_second_drop_overlaps_the_first_witness :
  let a1 := act sample_backend (Drop [pdf 1 "a.pdf"; pdf 2 "b.pdf"]) (start acme_world) in
  let a2 := act sample_backend (Drop [pdf 3 "c.pdf"]) a1.1 in
  length (tasks a2.1) = 2
  /\ in_flight (a1.2 ++ a2.2) = [0; 1]
  /\ file <$> batch_of a2.1 = [pdf 1 "a.pdf"; pdf 2 "b.pdf"; pdf 3 "c.pdf"].
Proof.
  apply (X15_a_second_drop_overlaps_the_first sample_backend acme_world
           [pdf 1 "a.pdf"; pdf 2 "b.pdf"] [pdf 3 "c.pdf"]).
  - discriminate.
  - discriminate.
  - vm_compute. discriminate.
Defined.

(** X16.  A batch goes to the workspace it was dropped under.  When the
    user changes the workspace name while a batch is running, the field and
    local storage take the new name at once, and the files of the batch
    still to be sent are sent under the name read at the drop. *)
Theorem X16_workspace_edit_does_not_redirect_a_batch
    (be : Backend) (w : World) (f g : File) (rest : list File) (value : jsstring) :
  trim (UploadState.namespace (upload w)) <> [] ->
  let ns := UploadState.namespace (upload w) in
  let s1 := (act be (Drop (f :: g :: rest)) (start w)).1 in
  let s2 := (act be (ChangeNamespace value) s1).1 in
  let a3 := act be (Settle 0) s2 in
  UploadState.namespace (upload (world s2)) = workspace_chars value
  /\ localStorage (world s2) !! contractNamespace = Some (workspace_chars value)
  /\ requests a3.2 = [(S (next_promise w), PostUploadContract g ns)]
  /\ UploadState.namespace (upload (world a3.1)) = workspace_chars value.
Proof.
  intros Hns ns s1 s2 a3. subst a3 s2 s1.
  rewrite (act_Drop_accepted be (start w) f (g :: rest) Hns). cbn [fst].
  rewrite act_ChangeNamespace, run_handleNamespaceChange.
  cbn [world tasks dropped start app upload UploadState.namespace localStorage].
  split; [reflexivity|]. split; [apply lookup_insert_eq|].
  unfold act. cbn [tasks lookup list_lookup world dropped].
  cbn [upload_task task_promise promise_id promise_request].
  unfold handle. cbn [world tasks dropped].
  rewrite until_await_resume. cbn zeta.
  cbn [up_file up_rest up_namespace up_successCount up_errorCount].
  rewrite until_await_loop. cbn [fst snd requests].
  split; reflexivity.
Qed.

Lemma X16_workspace_edit_does_not_redirect_a_batch_witness :
  let s1 := (act sample_backend (Drop [pdf 1 "a.pdf"; pdf 2 "b.pdf"]) (start acme_world)).1 in
  let s2 := (act sample_backend (ChangeNamespace (lit "other client")) s1).1 in
  let a3 := act sample_backend (Settle 0) s2 in
  UploadState.namespace (upload (world s2)) = lit "otherclient"
  /\ localStorage (world s2) !! contractNamespace = Some (lit "otherclient")
  /\ requests a3.2 = [(1, PostUploadContract (pdf 2 "b.pdf") (lit "acme"))]
  /\ UploadState.namespace (upload (world a3.1)) = lit "otherclient".
Proof.
  apply (X16_workspace_edit_does_not_redirect_a_batch sample_backend acme_world
           (pdf 1 "a.pdf") (pdf 2 "b.pdf") [] (lit "other client")).
  vm_compute. discriminate.
Defined.

(** X17.  No row is left processing.  In a session that starts on an empty
    list, with fresh files at every drop, whenever no handler is waiting for
    a response every row of the list is settled, [success] or [error],
    however drops, settlements, deletions and workspace edits came. *)
Theorem X17_idle_session_shows_no_uploading_row
    (be : Backend) (actions : list Action) (w : World) :
  UploadState.files (upload w) = [] ->
  all_fresh be actions (start w) ->
  let s := session be actions (start w) in
  tasks s = [] ->
  forall item, item ∈ batch_of s -> status item = success \/ status item = error.
Proof.
  intros Hw Hfresh s Hidle item Hin.
  destruct (session_consistent be actions (start w) [] (start_consistent w Hw) Hfresh)
    as (us & Hc).
  fold s in Hc. pose proof (c_tasks s us Hc) as Ht. rewrite Hidle in Ht.
  symmetry in Ht. apply fmap_nil_inv in Ht. subst us.
  destruct (status item) eqn:Hst; [|left; reflexivity|right; reflexivity].
  pose proof (c_uploading s [] Hc item Hin Hst) as Hr.
  apply elem_of_nil in Hr. contradiction.
Qed.

Lemma X17_idle_session_shows_no_uploading_row_witness :
  Forall (fun item => status item = success \/ status item = error)
    (batch_of (session sample_backend
                 [Drop [pdf 1 "a.pdf"; pdf 2 "b.pdf"]; Settle 0;
                  ChangeNamespace (lit "other"); Settle 0]
                 (start acme_world))).
Proof.
  apply Forall_forall.
  apply (X17_idle_session_shows_no_uploading_row sample_backend
           [Drop [pdf 1 "a.pdf"; pdf 2 "b.pdf"]; Settle 0;
            ChangeNamespace (lit "other"); Settle 0] acme_world).
  - reflexivity.
  - cbn [all_fresh fresh]. split; [|split; [exact I | split; [exact I | split; exact I]]].
    split.
    + apply (bool_decide_unpack _). vm_compute. reflexivity.
    + intros r _. apply not_elem_of_nil.
  - vm_compute. reflexivity.
Defined.

(** X18.  In a session that starts on an empty list, with fresh files at
    every drop, the file objects of the rows are pairwise distinct at every
    moment, so that a click on the delete control of a settled row removes
    that row and no other, and disturbs no handler that is waiting. *)
Theorem X18_session_delete_removes_one_row
    (be : Backend) (actions : list Action) (w : World) (index : nat)
    (item : FileUploadStatus) :
  UploadState.files (upload w) = [] ->
  all_fresh be actions (start w) ->
  let s := session be actions (start w) in
  batch_of s !! index = Some item ->
  status item <> uploading ->
  let s' := (act be (ClickDelete index) s).1 in
  NoDup (refs (batch_of s))
  /\ batch_of s' = delete index (batch_of s)
  /\ tasks s' = tasks s
  /\ length (batch_of s') + 1 = length (batch_of s).
Proof.
  intros Hw Hfresh s Hi Hst s'.
  destruct (session_consistent be actions (start w) [] (start_consistent w Hw) Hfresh)
    as (us & Hc).
  fold s in Hc. pose proof (c_batch s us Hc) as Hnd.
  assert (Hfiles : batch_of s' = delete index (batch_of s) /\ tasks s' = tasks s).
  { subst s'. unfold batch_of in *. destruct s as [ws ts dr]. cbn [world tasks] in *.
    unfold act, handle, clickDelete, deleteButton, removeFile. cbn [world tasks dropped].
    rewrite Hi.
    destruct (status item); [congruence| |];
      cbn; rewrite app_nil_r; (split; [|reflexivity]);
      apply filter_is_delete; assumption. }
  destruct Hfiles as [Hb Ht]. split; [exact Hnd|]. split; [exact Hb|]. split; [exact Ht|].
  rewrite Hb, length_delete by (rewrite Hi; eauto).
  apply lookup_lt_Some in Hi. lia.
Qed.

Lemma X18_session_delete_removes_one_row_witness :
  let actions := [Drop [pdf 1 "a.pdf"; pdf 2 "b.pdf"]; Settle 0] in
  let s := session sample_backend actions (start acme_world) in
  let s' := (act sample_backend (ClickDelete 0) s).1 in
  NoDup (refs (batch_of s))
  /\ batch_of s' = delete 0 (batch_of s)
  /\ tasks s' = tasks s
  /\ length (batch_of s') + 1 = length (batch_of s).
Proof.
  apply (X18_session_delete_removes_one_row sample_backend
           [Drop [pdf 1 "a.pdf"; pdf 2 "b.pdf"]; Settle 0] acme_world 0
           {| file := pdf 1 "a.pdf"; status := success;
              message := Some (lit "Processed successfully! 12 sections analyzed.");
              chunksCreated := Some 12%Z |}).
  - reflexivity.
  - cbn [all_fresh fresh]. split; [|split; exact I].
    split.
    + apply (bool_decide_unpack _). vm_compute. reflexivity.
    + intros r _. apply not_elem_of_nil.
  - vm_compute. reflexivity.
  - discriminate.
Defined.

(* ===================================================================== *)
(** ** A row deleted while its batch is running *)
(* ===================================================================== *)

(** The settlement of the first waiting upload. *)
Lemma act_Settle_upload (be : Backend) (s : Session) (u : Upload) (ts : list Task) :
  tasks s = upload_task u :: ts ->
  let o := outcome be (up_namespace u) (up_id u) (up_file u) in
  let batch := settle_item (up_file u) o <$> UploadState.files (upload (world s)) in
  let sc := if failed o then up_successCount u else S (up_successCount u) in
  let ec := if failed o then S (up_errorCount u) else up_errorCount u in
  let w1 := set_upload (set_files batch) (world s) in
  (act be (Settle 0) s).1
  = match up_rest u with
    | [] =>
        {| world := set_upload (set_globalMessage (Some (summary (up_namespace u) sc ec))) w1;
           tasks := ts; dropped := dropped s |}
    | g :: rest =>
        {| world := set_next_promise (S (next_promise w1)) w1;
           tasks := ts ++ [upload_task {| up_namespace := up_namespace u; up_file := g;
                                          up_rest := rest; up_successCount := sc;
                                          up_errorCount := ec; up_id := next_promise w1 |}];
           dropped := dropped s |}
    end.
Proof.
  intros Ht. cbn zeta. unfold act. rewrite Ht. cbn [lookup list_lookup delete list_delete].
  cbn [upload_task task_promise promise_id promise_request].
  unfold handle. cbn [world tasks dropped].
  rewrite until_await_resume. cbn zeta. rewrite until_await_loop.
  unfold outcome. destruct (up_rest u) as [|g rest]; cbn [fst option_list].
  - rewrite app_nil_r. reflexivity.
  - reflexivity.
Qed.

(** A click on the delete control of a settled row, the file objects of the
    list being pairwise distinct. *)
Lemma act_ClickDelete_settled (be : Backend) (s : Session) (index : nat)
    (item : FileUploadStatus) :
  NoDup (refs (batch_of s)) ->
  batch_of s !! index = Some item ->
  status item <> uploading ->
  (act be (ClickDelete index) s).1
  = {| world := set_upload (set_files (delete index (batch_of s))) (world s);
       tasks := tasks s; dropped := dropped s |}.
Proof.
  intros Hnd Hi Hst. unfold batch_of in *. destruct s as [ws ts dr]. cbn [world tasks] in *.
  unfold act, handle, clickDelete, deleteButton, removeFile. cbn [world tasks dropped].
  rewrite Hi. rewrite <- (filter_is_delete _ index item Hnd Hi).
  destruct (status item); [congruence| |]; cbn; rewrite app_nil_r; reflexivity.
Qed.

(** X19.  The summary counts the requests of the batch, not the rows of the
    list.  The delete control of a row appears as soon as the row is
    settled, while its batch may still be running: when two fresh files are
    dropped under a workspace name and the row of the first is deleted
    after its settlement and before the settlement of the second, no
    handler is left waiting at the end, the list holds the rows that were
    there and the row of the second file only, and the summary is still the
    one for two files, the deleted one counted with its outcome. *)
Theorem X19_deleted_row_is_still_counted
    (be : Backend) (w : World) (f g : File) :
  trim (UploadState.namespace (upload w)) <> [] ->
  NoDup (refs (UploadState.files (upload w)) ++ [file_ref f; file_ref g]) ->
  let ns := UploadState.namespace (upload w) in
  let prev := UploadState.files (upload w) in
  let e := failures be ns (next_promise w) [f; g] in
  let s := session be [Drop [f; g]; Settle 0; ClickDelete (length prev); Settle 0] (start w) in
  tasks s = []
  /\ file <$> batch_of s = (file <$> prev) ++ [g]
  /\ length (batch_of s) = length prev + 1
  /\ UploadState.globalMessage (upload (world s)) = Some (summary ns (2 - e) e).
Proof.
  intros Hns Hnd ns prev e s.
  destruct w as [[fs gm ns0 ne] q ls n].
  cbn [upload UploadState.files UploadState.namespace next_promise] in *.
  set (o0 := outcome be ns0 n f).
  set (o1 := outcome be ns0 (S n) g).
  set (batch2 := settle_item f o0 <$> fs ++ (newFile <$> [f; g])).
  assert (Hs : s =
    {| world :=
         {| upload :=
              {| UploadState.files := settle_item g o1 <$> delete (length fs) batch2;
                 UploadState.globalMessage :=
                   Some (summary ns0
                           (if failed o1 then if failed o0 then 0 else 1
                            else S (if failed o0 then 0 else 1))
                           (if failed o1 then S (if failed o0 then 1 else 0)
                            else if failed o0 then 1 else 0));
                 UploadState.namespace := ns0;
                 UploadState.namespaceError := ne |};
            querier := q; localStorage := ls; next_promise := S (S n) |};
       tasks := [];
       dropped := [file_ref f; file_ref g] |}).
  { subst s prev. cbn [session].
    rewrite (act_Drop_accepted be
               (start {| upload := {| UploadState.files := fs; UploadState.globalMessage := gm;
                                      UploadState.namespace := ns0;
                                      UploadState.namespaceError := ne |};
                         querier := q; localStorage := ls; next_promise := n |})
               f [g] Hns). cbn [fst].
    cbn [world start tasks dropped app upload UploadState.files UploadState.namespace
         next_promise set_next_promise set_upload set_files set_globalMessage].
    match goal with
    | |- context [act be (Settle 0) ?s1] =>
        rewrite (act_Settle_upload be s1 _ [] eq_refl)
    end. cbn zeta.
    cbn [up_rest up_file up_namespace up_successCount up_errorCount up_id world tasks dropped
         app upload UploadState.files next_promise set_next_promise set_upload set_files].
    fold o0. fold batch2.
    assert (Hnd2 : NoDup (refs batch2)).
    { subst batch2. rewrite refs_settle. unfold refs. rewrite fmap_app. exact Hnd. }
    assert (Hrow : batch2 !! length fs = Some (settle_item f o0 (newFile f))).
    { subst batch2. rewrite list_lookup_fmap, lookup_app_r by lia.
      rewrite Nat.sub_diag. reflexivity. }
    assert (Hst : status (settle_item f o0 (newFile f)) <> uploading).
    { rewrite settle_item_status by (cbn [newFile file]; unfold same_file; apply Nat.eqb_refl).
      destruct (failed o0); discriminate. }
    match goal with
    | |- context [act be (ClickDelete (length fs)) ?s2] =>
        rewrite (act_ClickDelete_settled be s2 (length fs) _ Hnd2 Hrow Hst)
    end.
    unfold batch_of.
    cbn [world tasks dropped upload UploadState.files set_upload set_files].
    match goal with
    | |- context [act be (Settle 0) ?s3] =>
        rewrite (act_Settle_upload be s3 _ [] eq_refl)
    end. cbn zeta.
    cbn [up_rest up_file up_namespace up_successCount up_errorCount up_id world tasks dropped
         upload UploadState.files set_upload set_files set_globalMessage].
    fold o1. reflexivity. }
  rewrite Hs. unfold batch_of.
  cbn [world tasks upload UploadState.files UploadState.globalMessage].
  assert (Hfiles : file <$> delete (length fs) batch2 = (file <$> fs) ++ [g]).
  { subst batch2. rewrite fmap_app.
    replace (length fs) with (length (settle_item f o0 <$> fs)) by apply length_fmap.
    cbn [fmap list_fmap]. rewrite delete_middle, fmap_app, files_settle.
    cbn [fmap list_fmap]. rewrite settle_item_file. reflexivity. }
  split; [reflexivity|]. split; [|split].
  - rewrite files_settle. exact Hfiles.
  - rewrite length_fmap. apply (f_equal length) in Hfiles.
    rewrite length_fmap, length_app, length_fmap in Hfiles. exact Hfiles.
  - subst e ns. cbn [failures]. fold o0 o1.
    destruct (failed o0), (failed o1); reflexivity.
Qed.

Lemma X19_deleted_row_is_still_counted_witness :
  let s := session sample_backend
             [Drop [pdf 1 "a.pdf"; pdf 2 "b.pdf"]; Settle 0; ClickDelete 0; Settle 0]
             (start acme_world) in
  tasks s = []
  /\ file <$> batch_of s = [pdf 2 "b.pdf"]
  /\ length (batch_of s) = 1
  /\ UploadState.globalMessage (upload (world s)) = Some (summary (lit "acme") 1 1).
Proof.
  apply (X19_deleted_row_is_still_counted sample_backend acme_world
           (pdf 1 "a.pdf") (pdf 2 "b.pdf")).
  - vm_compute. discriminate.
  - apply (bool_decide_unpack _). vm_compute. reflexivity.
Defined.
